(** * bareboot-initial-metadata: layout calculation and binary composition

    A shallow embedding of [generate_platform_config.py] (the layout
    calculator) and [initial_metadata.py] (metadata extraction and binary
    composition), with the properties of the specification proved
    about it.

    Conventions of the embedding:
    - Python integers are [Z]; they never wrap.
    - A dictionary loaded from a YAML document is a [gmap] from key strings
      to values; the values covered are integers, strings and (in a layout
      configuration) lists of those.
    - A Python exception is a constructor of [exn]; code that can raise
      returns a [result].
    - The files touched by the scripts live in a store [files], a finite map
      from path to content; code that reads or writes files is a function
      from the store to a result and the store it leaves behind.
    - [print] calls are not modelled; the external program [dd] that the
      composer starts is a parameter of the composer, with a reference
      behaviour in [Dd]. *)

From Stdlib Require Import ZArith Lia DecimalString DecimalNat DecimalPos.
From Stdlib Require Import Strings.Byte.
From stdpp Require Import base numbers list list_numbers strings gmap.

Local Open Scope Z_scope.
Local Open Scope string_scope.
Local Open Scope list_scope.

(** ** Exceptions and results *)

Inductive exn : Type :=
| KeyError (key : string)
| TypeError
| ValueError
| OverflowError
| IndexError
| FileNotFoundError (path : string)
| OSError
| Exception (message : string).

Inductive result (A : Type) : Type :=
| Ok (a : A)
| Raise (e : exn).

Arguments Ok {A} a.
Arguments Raise {A} e.

#[global] Instance result_ret : MRet result := fun A a => Ok a.
#[global] Instance result_bind : MBind result :=
  fun A B f m => match m with Ok a => f a | Raise e => Raise e end.

(** ** Python values *)

Inductive scalar : Type :=
| SInt (n : Z)
| SStr (s : string).

Inductive value : Type :=
| VScalar (x : scalar)
| VList (l : list scalar).

Coercion VScalar : scalar >-> value.

(** [d[k]] on a dictionary. *)
Definition getitem {V} (d : gmap string V) (k : string) : result V :=
  match d !! k with
  | Some v => Ok v
  | None => Raise (KeyError k)
  end.

(** [s * n] for a string [s]: [n] copies, none when [n <= 0]. *)
Definition str_repeat (s : string) (n : Z) : string :=
  Nat.iter (Z.to_nat n) (String.append s) "".

(** [a + b]. *)
Definition py_add (a b : scalar) : result scalar :=
  match a, b with
  | SInt x, SInt y => Ok (SInt (x + y))
  | SStr x, SStr y => Ok (SStr (String.append x y))
  | _, _ => Raise TypeError
  end.

(** [a * b]. *)
Definition py_mul (a b : scalar) : result scalar :=
  match a, b with
  | SInt x, SInt y => Ok (SInt (x * y))
  | SInt n, SStr s | SStr s, SInt n => Ok (SStr (str_repeat s n))
  | SStr _, SStr _ => Raise TypeError
  end.

(** [range(0, stop)]. *)
Definition py_range (stop : scalar) : result (list Z) :=
  match stop with
  | SInt n => Ok (seqZ 0 n)
  | SStr _ => Raise TypeError
  end.

(** [str(z)] for an integer. *)
Definition str_of_Z (z : Z) : string :=
  NilZero.string_of_int (Z.to_int z).

(** What an f-string puts for [{x}]. *)
Definition py_format (x : scalar) : string :=
  match x with
  | SInt n => str_of_Z n
  | SStr s => s
  end.

(** Dictionaries whose iteration order the code relies on: insertion
    order, a key that is set again keeps its place. *)
Definition odict (V : Type) : Type := list (string * V).

Fixpoint odict_set {V} (k : string) (v : V) (d : odict V) : odict V :=
  match d with
  | [] => [(k, v)]
  | (k', v') :: d' =>
      if bool_decide (k = k') then (k, v) :: d' else (k', v') :: odict_set k v d'
  end.

#[global] Instance result_fmap : FMap result :=
  fun A B f m => match m with Ok a => Ok (f a) | Raise e => Raise e end.

(** [a + b] and [a * b] on the values of a configuration. *)
Definition val_add (a b : value) : result value :=
  match a, b with
  | VScalar x, VScalar y => VScalar <$> py_add x y
  | VList x, VList y => Ok (VList (x ++ y))
  | _, _ => Raise TypeError
  end.

Definition val_mul (a b : value) : result value :=
  match a, b with
  | VScalar x, VScalar y => VScalar <$> py_mul x y
  | VList l, VScalar (SInt n) | VScalar (SInt n), VList l =>
      Ok (VList (concat (replicate (Z.to_nat n) l)))
  | _, _ => Raise TypeError
  end.

(** [s[i]] for a string and [i >= 0]: the one-character string at [i]. *)
Definition str_index (s : string) (i : nat) : result scalar :=
  match String.get i s with
  | Some c => Ok (SStr (String c EmptyString))
  | None => Raise IndexError
  end.

(** [v[i]] for [i >= 0]. *)
Definition val_index (v : value) (i : nat) : result scalar :=
  match v with
  | VList l => match l !! i with Some x => Ok x | None => Raise IndexError end
  | VScalar (SStr s) => str_index s i
  | VScalar (SInt _) => Raise TypeError
  end.

(** ** Bytes and integer encodings *)

Definition Z_of_byte (b : byte) : Z := Z.of_N (Byte.to_N b).

Definition byte_of_Z (z : Z) : byte :=
  default x00 (Byte.of_N (Z.to_N (z mod 256))).

Definition bytes_of_string (s : string) : list byte := String.list_byte_of_string s.

(** The [n] low bytes of [v], least significant first. *)
Fixpoint le_bytes (n : nat) (v : Z) : list byte :=
  match n with
  | O => []
  | S n' => byte_of_Z v :: le_bytes n' (v / 256)
  end.

Fixpoint le_int (bs : list byte) : Z :=
  match bs with
  | [] => 0
  | b :: bs' => Z_of_byte b + 256 * le_int bs'
  end.

Definition be_bytes (n : nat) (v : Z) : list byte := rev (le_bytes n v).
Definition be_int (bs : list byte) : Z := le_int (rev bs).

(** [v.to_bytes(length, byteorder)] (unsigned): the byte order is checked
    first, then the range of [v]. *)
Definition int_to_bytes (v : Z) (length : nat) (byteorder : value)
    : result (list byte) :=
  match byteorder with
  | VScalar (SStr order) =>
      if bool_decide (order = "little") || bool_decide (order = "big") then
        if bool_decide (v < 0) then Raise OverflowError
        else if bool_decide (256 ^ Z.of_nat length <= v) then Raise OverflowError
        else if bool_decide (order = "little") then Ok (le_bytes length v)
        else Ok (be_bytes length v)
      else Raise ValueError
  | _ => Raise TypeError
  end.

(** [int.from_bytes(bs, byteorder)] (unsigned), the decoding a reader of
    the binary applies. *)
Definition int_from_bytes (bs : list byte) (byteorder : value) : result Z :=
  match byteorder with
  | VScalar (SStr order) =>
      if bool_decide (order = "little") then Ok (le_int bs)
      else if bool_decide (order = "big") then Ok (be_int bs)
      else Raise ValueError
  | _ => Raise TypeError
  end.

(** ** Files *)

(** The store of files, by path. Directories are not modelled: a path
    can always be created. *)
Abbreviation files := (gmap string (list byte)).

(** Code that works on files: it ends with a value or an exception, and
    leaves a store behind in both cases. *)
Definition io (A : Type) : Type := files -> result A * files.

#[global] Instance io_ret : MRet io := fun A a fs => (Ok a, fs).
#[global] Instance io_bind : MBind io :=
  fun A B f m fs =>
    match m fs with
    | (Ok a, fs') => f a fs'
    | (Raise e, fs') => (Raise e, fs')
    end.

Definition lift {A} (r : result A) : io A := fun fs => (r, fs).
Definition raise {A} (e : exn) : io A := fun fs => (Raise e, fs).

(** [open(path, 'rb').read()], and the check [open(path, 'rb+')] makes for
    an existing file. *)
Definition read_file (path : string) : io (list byte) :=
  fun fs =>
    match fs !! path with
    | Some content => (Ok content, fs)
    | None => (Raise (FileNotFoundError path), fs)
    end.

(** The content of the file when the [with open(...)] block is left. *)
Definition store (path : string) (content : list byte) : io unit :=
  fun fs => (Ok tt, <[path := content]> fs).

(** [file.seek(offset)] from the start of the file. *)
Definition seek (offset : value) : result nat :=
  match offset with
  | VScalar (SInt n) => if bool_decide (n < 0) then Raise OSError else Ok (Z.to_nat n)
  | _ => Raise TypeError
  end.

(** [file.write(data)] at position [offset] of a file opened without
    truncation: the bytes of [data] replace those at the position; a gap
    between the end of the file and the position reads as zeros; writing
    nothing changes nothing. *)
Definition write_at (content : list byte) (offset : nat) (data : list byte)
    : list byte :=
  match data with
  | [] => content
  | _ :: _ =>
      take offset content ++ replicate (offset - length content) x00 ++
      data ++ drop (offset + length data) content
  end.

(** The [n] bytes of a file at [offset], fewer at the end of the file. *)
Definition read_at (content : list byte) (offset n : nat) : list byte :=
  take n (drop offset content).

(** ** generate_platform_config.py *)

Module Layout.

Definition PLATFORM_DESCRIPTION_PATH : string := "platform_description".
Definition GENERRATED_CONFIG_PATH : string := "config".

(** A template entry is either a width in bytes or the name of the
    platform field that holds the width ([isinstance(value, int)]). *)
Inductive template_size : Type :=
| Width (n : Z)
| Field (platform_key : string).

Definition IMAGE_METADATA_SIZES_TEMPLATE : odict template_size :=
  [ ("version", Width 4);
    ("crc", Width 4);
    ("bootcounter", Width 4);
    ("lastSuccessStatus", Width 4);
    ("imageBegin", Field "pointer_size");
    ("length", Width 4);
    ("completionStatus", Width 2);
    ("protectionStatus", Width 2);
    ("hmacSignature", Field "hmac_signature_size") ].

Definition GLOBAL_METADATA_SIZE_TEMPLATE : odict template_size :=
  [ ("globalBootCounter", Width 4);
    ("prefferedImage", Field "size_t_size");
    ("currentImage", Field "size_t_size");
    ("hmacKey1", Field "hmac_key_size");
    ("hmacKey2", Field "hmac_key_size");
    ("hmacKey3", Field "hmac_key_size");
    ("imageMetadata", Width 0) ].

(** The loop of [generate_image_begin_addresses] over [range]: one address
    is appended per index. *)
Fixpoint image_begin_addresses_loop (platform : gmap string scalar)
    (indices : list Z) (addresses : list scalar) : result (list scalar) :=
  match indices with
  | [] => Ok addresses
  | i :: rest =>
      bootloader_size ← getitem platform "bootloader_size";
      max_image_size ← getitem platform "max_image_size";
      offset ← py_mul (SInt i) max_image_size;
      address ← py_add bootloader_size offset;
      image_begin_addresses_loop platform rest (addresses ++ [address])
  end.

Definition generate_image_begin_addresses (platform : gmap string scalar)
    (config : gmap string value) : result (gmap string value) :=
  number_of_images ← getitem platform "number_of_images";
  indices ← py_range number_of_images;
  addresses ← image_begin_addresses_loop platform indices [];
  mret (<["image_begin_addresses" := VList addresses]> config).

(** The loop shared by [generate_size_of_metadata] and
    [generate_global_metadata_sizes]: every template entry becomes a
    width. *)
Fixpoint resolve_template (platform : gmap string scalar)
    (template : odict template_size) (sizes : odict scalar)
    : result (odict scalar) :=
  match template with
  | [] => Ok sizes
  | (key, Width n) :: rest =>
      resolve_template platform rest (odict_set key (SInt n) sizes)
  | (key, Field platform_key) :: rest =>
      width ← getitem platform platform_key;
      resolve_template platform rest (odict_set key width sizes)
  end.

(** [size += value] over [metadata_sizes.values()]. *)
Fixpoint sum_values (sizes : odict scalar) (size : scalar) : result scalar :=
  match sizes with
  | [] => Ok size
  | (_, width) :: rest => size' ← py_add size width; sum_values rest size'
  end.

Definition generate_size_of_metadata (platform : gmap string scalar)
    (config : gmap string value)
    : result (odict scalar * gmap string value) :=
  metadata_sizes ← resolve_template platform IMAGE_METADATA_SIZES_TEMPLATE [];
  size ← sum_values metadata_sizes (SInt 0);
  mret (metadata_sizes, <["size_of_metadata" := VScalar size]> config).

Definition generate_global_metadata_sizes (platform : gmap string scalar)
    : result (odict scalar) :=
  resolve_template platform GLOBAL_METADATA_SIZE_TEMPLATE [].

(** One [for key, value in sizes.items()] loop of [get_offset_of]: it
    either returns from the function with the offset of [prop] or falls
    through with the offset accumulated so far. *)
Inductive walk : Type :=
| Return (offset : scalar)
| Continue (offset : scalar).

Fixpoint walk_sizes (prop : string) (sizes : odict scalar) (offset : scalar)
    : result walk :=
  match sizes with
  | [] => Ok (Continue offset)
  | (key, width) :: rest =>
      if bool_decide (key = prop) then Ok (Return offset)
      else offset' ← py_add offset width; walk_sizes prop rest offset'
  end.

Definition get_offset_of (prop : string) (platform : gmap string scalar)
    (metadata_sizes global_metadata_sizes : odict scalar) : result scalar :=
  offset ← getitem platform "metadata_label_address";
  w ← walk_sizes prop global_metadata_sizes offset;
  match w with
  | Return offset => Ok offset
  | Continue offset =>
      w ← walk_sizes prop metadata_sizes offset;
      match w with
      | Return offset => Ok offset
      | Continue _ => Ok (SInt 0)
      end
  end.

Definition generate_offsets (platform : gmap string scalar)
    (config : gmap string value)
    (metadata_sizes global_metadata_sizes : odict scalar)
    : result (gmap string value) :=
  let offset_of prop :=
    get_offset_of prop platform metadata_sizes global_metadata_sizes in
  o ← offset_of "hmacKey1";
  let config := <["hmac_key_offset" := VScalar o]> config in
  o ← offset_of "imageMetadata";
  let config := <["first_image_metadata_offset" := VScalar o]> config in
  o ← offset_of "crc";
  let config := <["first_crc_offset" := VScalar o]> config in
  o ← offset_of "length";
  let config := <["first_length_offset" := VScalar o]> config in
  o ← offset_of "completionStatus";
  let config := <["first_completion_status_offset" := VScalar o]> config in
  o ← offset_of "hmacSignature";
  mret (<["first_hmac_offset" := VScalar o]> config).

(** The body of [generate_config] between loading the platform description
    and saving the configuration. *)
Definition build_config (platform : gmap string scalar)
    : result (gmap string value) :=
  name ← getitem platform "name";
  let config : gmap string value := {["name" := VScalar name]} in
  config ← generate_image_begin_addresses platform config;
  '(metadata_sizes, config) ← generate_size_of_metadata platform config;
  global_metadata_sizes ← generate_global_metadata_sizes platform;
  config ← generate_offsets platform config metadata_sizes global_metadata_sizes;
  bootloader_size ← getitem platform "bootloader_size";
  let config := <["bootloader_size" := VScalar bootloader_size]> config in
  byteorder ← getitem platform "byteorder";
  let config := <["byteorder" := VScalar byteorder]> config in
  max_image_size ← getitem platform "max_image_size";
  mret (<["max_image_size" := VScalar max_image_size]> config).

(** [yaml.load], [yaml.dump] and the text Python prints for a list belong
    to the libraries; the calculator is modelled over any functions for
    them. *)
Section Yaml.

Variable yaml_load : list byte -> result (gmap string scalar).
Variable yaml_dump : gmap string value -> list byte.
Variable repr_list : list scalar -> string.

Definition format_value (v : value) : string :=
  match v with
  | VScalar x => py_format x
  | VList l => repr_list l
  end.

Definition warning : string :=
  String.append "# Automatically generated. Don't edit manually"
                (String (Ascii.ascii_of_nat 10) EmptyString).

(** [open(path, 'w')] creates the file or empties it; it holds the
    warning line and the dump when the block is left. *)
Definition save_config (config : gmap string value) : io unit :=
  name ← lift (getitem config "name");
  let path := String.append GENERRATED_CONFIG_PATH
                (String.append "/" (String.append (format_value name) ".yml")) in
  store path (bytes_of_string warning ++ yaml_dump config).

Definition generate_config (platform_filename : string) : io unit :=
  let path := String.append PLATFORM_DESCRIPTION_PATH
                (String.append "/" platform_filename) in
  content ← read_file path;
  platform ← lift (yaml_load content);
  config ← lift (build_config platform);
  save_config config.

(** The loop of the main block over the platform files. *)
Fixpoint generate_all (platform_files : list string) : io unit :=
  match platform_files with
  | [] => mret tt
  | platform_file :: rest =>
      generate_config platform_file;;
      generate_all rest
  end.

(** The main block, from the names [os.listdir] returned. *)
Definition main (listing : list string) : io unit :=
  generate_all (filter (fun name => name <> "template.yml") listing).

End Yaml.

End Layout.

(** A platform description as the documents under [platform_description/]
    give it. *)
Record PlatformDescription : Type := {
  pd_name : string;
  pd_number_of_images : Z;
  pd_bootloader_size : Z;
  pd_max_image_size : Z;
  pd_metadata_label_address : Z;
  pd_pointer_size : Z;
  pd_size_t_size : Z;
  pd_hmac_key_size : Z;
  pd_hmac_signature_size : Z;
  pd_byteorder : string
}.

(** The dictionary [yaml.load] returns for such a document. *)
Definition platform_dict (p : PlatformDescription) : gmap string scalar :=
  list_to_map
    [ ("name", SStr (pd_name p));
      ("number_of_images", SInt (pd_number_of_images p));
      ("bootloader_size", SInt (pd_bootloader_size p));
      ("max_image_size", SInt (pd_max_image_size p));
      ("metadata_label_address", SInt (pd_metadata_label_address p));
      ("pointer_size", SInt (pd_pointer_size p));
      ("size_t_size", SInt (pd_size_t_size p));
      ("hmac_key_size", SInt (pd_hmac_key_size p));
      ("hmac_signature_size", SInt (pd_hmac_signature_size p));
      ("byteorder", SStr (pd_byteorder p)) ].

Definition example_platform : PlatformDescription :=
  {| pd_name := "va41620_dev_board";
     pd_number_of_images := 2;
     pd_bootloader_size := 0x1000;
     pd_max_image_size := 0x8000;
     pd_metadata_label_address := 0x20000;
     pd_pointer_size := 4;
     pd_size_t_size := 4;
     pd_hmac_key_size := 32;
     pd_hmac_signature_size := 32;
     pd_byteorder := "little" |}.

(** ** The library functions the extractor calls *)

(** [crc32c.crc32c]: CRC-32C (Castagnoli), reflected polynomial
    [0x82F63B78], initial value and final xor [0xFFFFFFFF]. *)
Module Crc32c.

Definition polynomial : Z := 0x82F63B78.

Definition shift (crc : Z) : Z :=
  if Z.testbit crc 0 then Z.lxor (Z.shiftr crc 1) polynomial
  else Z.shiftr crc 1.

Definition update (crc : Z) (b : byte) : Z :=
  Nat.iter 8 shift (Z.lxor crc (Z_of_byte b)).

Definition crc32c (data : list byte) : Z :=
  Z.lxor (fold_left update data 0xFFFFFFFF) 0xFFFFFFFF.

End Crc32c.

(** [hashlib.sha256]: SHA-256 of FIPS 180-4 on byte strings. *)
Module Sha256.

Definition word (x : Z) : Z := x mod 2 ^ 32.
Definition add (x y : Z) : Z := word (x + y).
Definition rotr (n x : Z) : Z :=
  Z.lor (Z.shiftr x n) (word (Z.shiftl x (32 - n))).
Definition shr (n x : Z) : Z := Z.shiftr x n.
Definition lnot (x : Z) : Z := Z.lxor x 0xFFFFFFFF.

Definition Ch (x y z : Z) : Z := Z.lxor (Z.land x y) (Z.land (lnot x) z).
Definition Maj (x y z : Z) : Z :=
  Z.lxor (Z.lxor (Z.land x y) (Z.land x z)) (Z.land y z).
Definition Sigma0 (x : Z) : Z := Z.lxor (Z.lxor (rotr 2 x) (rotr 13 x)) (rotr 22 x).
Definition Sigma1 (x : Z) : Z := Z.lxor (Z.lxor (rotr 6 x) (rotr 11 x)) (rotr 25 x).
Definition sigma0 (x : Z) : Z := Z.lxor (Z.lxor (rotr 7 x) (rotr 18 x)) (shr 3 x).
Definition sigma1 (x : Z) : Z := Z.lxor (Z.lxor (rotr 17 x) (rotr 19 x)) (shr 10 x).

(** The first 64 primes. *)
Definition is_prime (p : Z) : bool :=
  forallb (fun d => negb (Z.eqb (p mod d) 0)) (seqZ 2 (p - 2)).

Definition primes : list Z := filter (fun p => is_prime p = true) (seqZ 2 310).

(** The integer part of the cube root of [n], found bit by bit below
    [2 ^ bits]. *)
Fixpoint cube_root (bits : nat) (n root : Z) : Z :=
  match bits with
  | O => root
  | S bits' =>
      let next := root + 2 ^ Z.of_nat bits' in
      cube_root bits' n (if Z.leb (next * next * next) n then next else root)
  end.

(** The round constants: the first 32 bits of the fractional parts of the
    cube roots of the first 64 primes. *)
Definition K : list Z :=
  Eval vm_compute in
    map (fun p => word (cube_root 40 (p * 2 ^ 96) 0)) primes.

(** The eight working variables, and the hash value between blocks. *)
Record state : Type := State {
  ha : Z; hb : Z; hc : Z; hd : Z; he : Z; hf : Z; hg : Z; hh : Z
}.

(** The initial hash value: the first 32 bits of the fractional parts of
    the square roots of the first 8 primes. *)
Definition root_fraction (p : Z) : Z := word (Z.sqrt (p * 2 ^ 64)).

Definition initial : state :=
  Eval vm_compute in
    State (root_fraction 2) (root_fraction 3) (root_fraction 5)
          (root_fraction 7) (root_fraction 11) (root_fraction 13)
          (root_fraction 17) (root_fraction 19).

(** Padding: a [0x80] byte, zeros up to 56 modulo 64, the bit length on
    eight bytes, most significant first. *)
Definition padding (len : nat) : list byte :=
  let zeros := Z.to_nat ((55 - Z.of_nat len) mod 64) in
  x80 :: replicate zeros x00 ++ be_bytes 8 (8 * Z.of_nat len).

(** Cut into [n] chunks of [size] elements. *)
Fixpoint chunks {A} (size n : nat) (l : list A) : list (list A) :=
  match n with
  | O => []
  | S n' => take size l :: chunks size n' (drop size l)
  end.

Definition blocks (message : list byte) : list (list Z) :=
  let padded := message ++ padding (length message) in
  map (fun block => map be_int (chunks 4 16 block))
      (chunks 64 (length padded / 64) padded).

(** The message schedule: [w] holds the words computed so far, latest
    first. *)
Definition next_word (w : list Z) : Z :=
  add (add (sigma1 (nth 1 w 0)) (nth 6 w 0))
      (add (sigma0 (nth 14 w 0)) (nth 15 w 0)).

Definition schedule (block : list Z) : list Z :=
  rev (Nat.iter 48 (fun w => next_word w :: w) (rev block)).

Definition round (s : state) (kw : Z * Z) : state :=
  let t1 := add (add (add (hh s) (Sigma1 (he s))) (Ch (he s) (hf s) (hg s)))
                (add (fst kw) (snd kw)) in
  let t2 := add (Sigma0 (ha s)) (Maj (ha s) (hb s) (hc s)) in
  State (add t1 t2) (ha s) (hb s) (hc s) (add (hd s) t1) (he s) (hf s) (hg s).

Definition compress (h : state) (block : list Z) : state :=
  let s := fold_left round (zip K (schedule block)) h in
  State (add (ha h) (ha s)) (add (hb h) (hb s)) (add (hc h) (hc s))
        (add (hd h) (hd s)) (add (he h) (he s)) (add (hf h) (hf s))
        (add (hg h) (hg s)) (add (hh h) (hh s)).

Definition output (h : state) : list byte :=
  be_bytes 4 (ha h) ++ be_bytes 4 (hb h) ++ be_bytes 4 (hc h) ++
  be_bytes 4 (hd h) ++ be_bytes 4 (he h) ++ be_bytes 4 (hf h) ++
  be_bytes 4 (hg h) ++ be_bytes 4 (hh h).

Definition sha256 (message : list byte) : list byte :=
  output (fold_left compress (blocks message) initial).

End Sha256.

(** What [hmac.new] needs of a [digestmod]. *)
Record digestmod : Type := {
  block_size : nat;
  digest_size : nat;
  digest : list byte -> list byte
}.

Definition hashlib_sha256 : digestmod :=
  {| block_size := 64; digest_size := 32; digest := Sha256.sha256 |}.

(** [hmac.new(key, msg, digestmod).digest()]: HMAC of RFC 2104. *)
Module Hmac.

Definition xor_byte (pad b : byte) : byte :=
  byte_of_Z (Z.lxor (Z_of_byte pad) (Z_of_byte b)).

Definition block_key (h : digestmod) (key : list byte) : list byte :=
  let key := if bool_decide (block_size h < length key)%nat
             then digest h key else key in
  key ++ replicate (block_size h - length key) x00.

Definition hmac_digest (key msg : list byte) (h : digestmod) : list byte :=
  let key := block_key h key in
  let inner := digest h (map (xor_byte x36) key ++ msg) in
  digest h (map (xor_byte x5c) key ++ inner).

End Hmac.

(** ** initial_metadata.py *)

(** [class ImageMetadata]; [hmac_signature] is [None] until it is set. *)
Module ImageMetadata.

Record t : Type := {
  crc : Z;
  completion_status : Z;
  hmac_signature : option (list byte);
  length : Z;
  file_name : string
}.

(** [__init__]. *)
Definition init : t :=
  {| crc := 0;
     completion_status := 1;
     hmac_signature := None;
     length := 0;
     file_name := "" |}.

End ImageMetadata.

(** [class GlobalImageMetadata]. *)
Module GlobalImageMetadata.

Record t : Type := {
  hmac_key_file : option string;
  images : list ImageMetadata.t
}.

(** [__init__]. *)
Definition init : t := {| hmac_key_file := None; images := [] |}.

End GlobalImageMetadata.

Module Composer.

Definition calculate_crc32c (image_file : string) : io Z :=
  content ← read_file image_file;
  mret (Crc32c.crc32c content).

(** [os.path.getsize]. *)
Definition get_length (file_name : string) : io Z :=
  content ← read_file file_name;
  mret (Z.of_nat (length content)).

Definition calculate_hmac_signature (image_file key_file : string)
    : io (list byte) :=
  key ← read_file key_file;
  image ← read_file image_file;
  mret (Hmac.hmac_digest key image hashlib_sha256).

(** The object [global_metadata] is updated in place; the embedding
    returns the updated object. *)
Definition extract_image_metadata (global_metadata : GlobalImageMetadata.t)
    (image_file key_file : string) : io GlobalImageMetadata.t :=
  let global_metadata :=
    {| GlobalImageMetadata.hmac_key_file := Some key_file;
       GlobalImageMetadata.images := GlobalImageMetadata.images global_metadata |} in
  let image_meta := ImageMetadata.init in
  crc ← calculate_crc32c image_file;
  length ← get_length image_file;
  hmac_signature ← calculate_hmac_signature image_file key_file;
  let image_meta :=
    {| ImageMetadata.crc := crc;
       ImageMetadata.completion_status := ImageMetadata.completion_status image_meta;
       ImageMetadata.hmac_signature := Some hmac_signature;
       ImageMetadata.length := length;
       ImageMetadata.file_name := image_file |} in
  mret {| GlobalImageMetadata.hmac_key_file :=
            GlobalImageMetadata.hmac_key_file global_metadata;
          GlobalImageMetadata.images :=
            GlobalImageMetadata.images global_metadata ++ [image_meta] |}.

(** [config[first] + config["size_of_metadata"] * index]. *)
Definition metadata_offset (config : gmap string value) (first : string)
    (index : Z) : result value :=
  first_offset ← getitem config first;
  size_of_metadata ← getitem config "size_of_metadata";
  stride ← val_mul size_of_metadata (SInt index);
  val_add first_offset stride.

(** [with open(output_file, 'rb+') as file: file.seek(offset);
    file.write(data)], where evaluating [data] can raise. *)
Definition patch (output_file : string) (offset : value)
    (data : result (list byte)) : io unit :=
  content ← read_file output_file;
  position ← lift (seek offset);
  bytes ← lift data;
  store output_file (write_at content position bytes).

Definition write_hmac_key (output_file : string) (key_file : option string)
    (config : gmap string value) : io unit :=
  content ← read_file output_file;
  key ← match key_file with
        | Some path => read_file path
        | None => raise TypeError
        end;
  offset ← lift (getitem config "hmac_key_offset");
  position ← lift (seek offset);
  store output_file (write_at content position key).

Definition write_crc (output_file : string) (crc index : Z)
    (config : gmap string value) : io unit :=
  offset ← lift (metadata_offset config "first_crc_offset" index);
  patch output_file offset
    (byteorder ← getitem config "byteorder"; int_to_bytes crc 4 byteorder).

Definition write_length (output_file : string) (length index : Z)
    (config : gmap string value) : io unit :=
  offset ← lift (metadata_offset config "first_length_offset" index);
  patch output_file offset
    (byteorder ← getitem config "byteorder"; int_to_bytes length 4 byteorder).

Definition write_completion_status (output_file : string)
    (completion_status index : Z) (config : gmap string value) : io unit :=
  offset ← lift (metadata_offset config "first_completion_status_offset" index);
  patch output_file offset
    (byteorder ← getitem config "byteorder";
     int_to_bytes completion_status 2 byteorder).

Definition write_hmac_signature (output_file : string)
    (hmac_signature : option (list byte)) (index : Z)
    (config : gmap string value) : io unit :=
  offset ← lift (metadata_offset config "first_hmac_offset" index);
  patch output_file offset
    (match hmac_signature with
     | Some bytes => Ok bytes
     | None => Raise TypeError
     end).

(** One turn of the loop of [fix_metadata]. *)
Definition fix_image_metadata (output_file : string)
    (image : ImageMetadata.t) (index : nat) (config : gmap string value)
    : io unit :=
  write_crc output_file (ImageMetadata.crc image) (Z.of_nat index) config;;
  write_length output_file (ImageMetadata.length image) (Z.of_nat index) config;;
  write_completion_status output_file
    (ImageMetadata.completion_status image) (Z.of_nat index) config;;
  write_hmac_signature output_file
    (ImageMetadata.hmac_signature image) (Z.of_nat index) config.

(** The loop over [enumerate(global_metadata.images)], from index [index]
    on. *)
Fixpoint fix_metadata_loop (output_file : string)
    (images : list ImageMetadata.t) (index : nat)
    (config : gmap string value) : io unit :=
  match images with
  | [] => mret tt
  | image :: rest =>
      fix_image_metadata output_file image index config;;
      fix_metadata_loop output_file rest (S index) config
  end.

Definition fix_metadata (output_file : string)
    (global_metadata : GlobalImageMetadata.t) (config : gmap string value)
    : io unit :=
  write_hmac_key output_file
    (GlobalImageMetadata.hmac_key_file global_metadata) config;;
  fix_metadata_loop output_file
    (GlobalImageMetadata.images global_metadata) 0 config.

(** The loop of the main block over [args.images]. *)
Fixpoint extract_all (global_metadata : GlobalImageMetadata.t)
    (images : list string) (key_file : string) : io GlobalImageMetadata.t :=
  match images with
  | [] => mret global_metadata
  | image_file_name :: rest =>
      global_metadata ←
        extract_image_metadata global_metadata image_file_name key_file;
      extract_all global_metadata rest key_file
  end.

(** The two places that copy a file into the output start the external
    program [dd] and only print what it reports. The composer is modelled
    over any effect [run] of a started command on the files. *)
Section Subprocess.

Variable run : list string -> files -> files.

Definition popen (cmd : list string) : io unit :=
  fun fs => (Ok tt, run cmd fs).

Definition dd_command (input_file output_file seek : string) : list string :=
  [ "dd"; "conv=notrunc"; "if=" +:+ input_file; "of=" +:+ output_file;
    "bs=1"; "seek=" +:+ seek; "status=progress" ].

Definition bootloader_too_big (length limit : Z) : string :=
  "Bootloader is too big. Has " +:+ str_of_Z length +:+ " but only " +:+
  str_of_Z limit +:+ " allowed." +:+ "Check linkerfile".

Definition image_too_big (image_file : string) (index : nat)
    (length limit : Z) : string :=
  "Image " +:+ image_file +:+ " wit index " +:+ str_of_Z (Z.of_nat index) +:+
  " has " +:+ str_of_Z length +:+ " bytes," +:+
  "but only " +:+ str_of_Z limit +:+ " fit in Slot".

(** [length > limit] for the integer [length]: only an integer limit
    compares with it. *)
Definition create_output_binary (bootloader_file output_file : string)
    (config : gmap string value) : io unit :=
  length ← get_length bootloader_file;
  bootloader_size ← lift (getitem config "bootloader_size");
  match bootloader_size with
  | VScalar (SInt limit) =>
      if bool_decide (limit < length) then
        raise (Exception (bootloader_too_big length limit))
      else
        popen (dd_command bootloader_file output_file (str_of_Z 0))
  | _ => raise TypeError
  end.

(** One turn of the loop of [append_images_to_binary]. *)
Definition append_image (image_file : string) (index : nat)
    (output_file : string) (config : gmap string value) : io unit :=
  length ← get_length image_file;
  max_image_size ← lift (getitem config "max_image_size");
  match max_image_size with
  | VScalar (SInt limit) =>
      if bool_decide (limit < length) then
        raise (Exception (image_too_big image_file index length limit))
      else
        addresses ← lift (getitem config "image_begin_addresses");
        offset ← lift (val_index addresses index);
        popen (dd_command image_file output_file (py_format offset))
  | _ => raise TypeError
  end.

(** The loop over [enumerate(images)], from index [index] on. *)
Fixpoint append_images_loop (images : list string) (index : nat)
    (output_file : string) (config : gmap string value) : io unit :=
  match images with
  | [] => mret tt
  | image_file :: rest =>
      append_image image_file index output_file config;;
      append_images_loop rest (S index) output_file config
  end.

Definition append_images_to_binary (images : list string)
    (output_file : string) (config : gmap string value) : io unit :=
  append_images_loop images 0 output_file config.

(** The main block, from the loaded configuration on. *)
Definition main (images : list string) (bootloader key_file out : string)
    (configuration : gmap string value) : io GlobalImageMetadata.t :=
  global_image_metadata ←
    extract_all GlobalImageMetadata.init images key_file;
  create_output_binary bootloader out configuration;;
  append_images_to_binary images out configuration;;
  fix_metadata out global_image_metadata configuration;;
  mret global_image_metadata.

End Subprocess.

End Composer.

(** The effect of [dd conv=notrunc if=... of=... bs=1 seek=N] for the
    commands the composer builds: the input is copied over the output
    from byte [N] on, the output is created when missing and is not cut;
    a command that [dd] refuses changes nothing. *)
Module Dd.

Fixpoint strip (prefix s : string) : option string :=
  match prefix, s with
  | EmptyString, _ => Some s
  | String a prefix', String b s' =>
      if bool_decide (a = b) then strip prefix' s' else None
  | String _ _, EmptyString => None
  end.

Definition parse_count (s : string) : option nat :=
  match s with
  | EmptyString => None
  | String _ _ => Nat.of_uint <$> NilEmpty.uint_of_string s
  end.

Definition run (cmd : list string) (fs : files) : files :=
  match cmd with
  | [_; _; input; output; _; seek; _] =>
      match strip "if=" input ≫= (fun path => fs !! path),
            strip "of=" output,
            strip "seek=" seek ≫= parse_count with
      | Some data, Some path, Some offset =>
          <[path := write_at (default [] (fs !! path)) offset data]> fs
      | _, _, _ => fs
      end
  | _ => fs
  end.

End Dd.

(** ** Vocabulary of the statements *)

(** [platform] has the fields of [p], with the values of [p]. *)
Definition describes (platform : gmap string scalar)
    (p : PlatformDescription) : Prop :=
  platform_dict p ⊆ platform.



(** The exceptions the two size checks raise. *)
Definition SizeExceededError (e : exn) : Prop :=
  exists message, e = Exception message.

(** The widths the two templates resolve to for [p]. *)
Definition metadata_sizes_of (p : PlatformDescription) : odict scalar :=
  [ ("version", SInt 4); ("crc", SInt 4); ("bootcounter", SInt 4);
    ("lastSuccessStatus", SInt 4); ("imageBegin", SInt (pd_pointer_size p));
    ("length", SInt 4); ("completionStatus", SInt 2);
    ("protectionStatus", SInt 2);
    ("hmacSignature", SInt (pd_hmac_signature_size p)) ].

Definition global_metadata_sizes_of (p : PlatformDescription) : odict scalar :=
  [ ("globalBootCounter", SInt 4);
    ("prefferedImage", SInt (pd_size_t_size p));
    ("currentImage", SInt (pd_size_t_size p));
    ("hmacKey1", SInt (pd_hmac_key_size p));
    ("hmacKey2", SInt (pd_hmac_key_size p));
    ("hmacKey3", SInt (pd_hmac_key_size p));
    ("imageMetadata", SInt 0) ].

Definition size_of_metadata_of (p : PlatformDescription) : Z :=
  4 + 4 + 4 + 4 + pd_pointer_size p + 4 + 2 + 2 + pd_hmac_signature_size p.

(** Where the first per-image record starts. *)
Definition first_record_of (p : PlatformDescription) : Z :=
  pd_metadata_label_address p + 4 + pd_size_t_size p + pd_size_t_size p +
  pd_hmac_key_size p + pd_hmac_key_size p + pd_hmac_key_size p.

(** The configuration [build_config] returns for [p], entry by entry in
    the order the code sets them. *)
Definition config_of (p : PlatformDescription) : gmap string value :=
  <["max_image_size" := VScalar (SInt (pd_max_image_size p))]>
  (<["byteorder" := VScalar (SStr (pd_byteorder p))]>
  (<["bootloader_size" := VScalar (SInt (pd_bootloader_size p))]>
  (<["first_hmac_offset" :=
       VScalar (SInt (first_record_of p + 0 + 4 + 4 + 4 + 4 + pd_pointer_size p + 4 + 2 + 2))]>
  (<["first_completion_status_offset" :=
       VScalar (SInt (first_record_of p + 0 + 4 + 4 + 4 + 4 + pd_pointer_size p + 4))]>
  (<["first_length_offset" :=
       VScalar (SInt (first_record_of p + 0 + 4 + 4 + 4 + 4 + pd_pointer_size p))]>
  (<["first_crc_offset" := VScalar (SInt (first_record_of p + 0 + 4))]>
  (<["first_image_metadata_offset" := VScalar (SInt (first_record_of p))]>
  (<["hmac_key_offset" :=
       VScalar (SInt (pd_metadata_label_address p + 4 + pd_size_t_size p + pd_size_t_size p))]>
  (<["size_of_metadata" := VScalar (SInt (size_of_metadata_of p))]>
  (<["image_begin_addresses" :=
       VList (map (fun i => SInt (pd_bootloader_size p + i * pd_max_image_size p))
                  (seqZ 0 (pd_number_of_images p)))]>
  ({["name" := VScalar (SStr (pd_name p))]}))))))))))).

(** The two field orders of the binary format as the specification lists
    them, and the offset it gives a field: the base address plus the widths
    of the fields before it, global fields first. *)
Module Format.

Definition global_field_order (p : PlatformDescription) : list (string * Z) :=
  [ ("globalBootCounter", 4);
    ("preferredImage", pd_size_t_size p);
    ("currentImage", pd_size_t_size p);
    ("hmacKey1", pd_hmac_key_size p);
    ("hmacKey2", pd_hmac_key_size p);
    ("hmacKey3", pd_hmac_key_size p);
    ("imageMetadata", 0) ].

Definition per_image_field_order (p : PlatformDescription) : list (string * Z) :=
  [ ("version", 4); ("crc", 4); ("bootcounter", 4); ("lastSuccessStatus", 4);
    ("imageBegin", pd_pointer_size p); ("length", 4);
    ("completionStatus", 2); ("protectionStatus", 2);
    ("hmacSignature", pd_hmac_signature_size p) ].

(** The fields before the first one called [field], when there is one. *)
Fixpoint preceding (field : string) (order : list (string * Z))
    : option (list (string * Z)) :=
  match order with
  | [] => None
  | (name, width) :: rest =>
      if bool_decide (name = field) then Some []
      else cons (name, width) <$> preceding field rest
  end.

Definition sum_widths (fields : list (string * Z)) : Z :=
  foldr (fun f acc => f.2 + acc) 0 fields.

Definition offset_of (p : PlatformDescription) (field : string) : option Z :=
  before ← preceding field (global_field_order p ++ per_image_field_order p);
  Some (pd_metadata_label_address p + sum_widths before).

End Format.

(** The entry [key] of [config] is [offset], the offset the format gives
    [field]. *)
Definition offset_entry (config : gmap string value) (key : string)
    (p : PlatformDescription) (field : string) (offset : Z) : Prop :=
  Format.offset_of p field = Some offset /\
  config !! key = Some (VScalar (SInt offset)).

(** The keys of an ordered dictionary. *)
Definition odict_keys {V} (d : odict V) : list string := map fst d.

(** All widths of an ordered dictionary are integers. *)
Definition int_widths (d : odict scalar) : Prop :=
  Forall (fun kv => exists n, kv.2 = SInt n) d.



(** [fs'] is [fs] after [n] bytes were written somewhere into the file
    [path]. *)
Definition writes_bytes (n : nat) (path : string) (fs fs' : files) : Prop :=
  exists content position bytes,
    fs !! path = Some content /\
    length bytes = n /\
    fs' = <[path := write_at content position bytes]> fs.

(** A platform small enough to compute whole binaries with, and the
    configuration the calculator gives it. *)
Definition small_platform : PlatformDescription :=
  {| pd_name := "small";
     pd_number_of_images := 2;
     pd_bootloader_size := 16;
     pd_max_image_size := 32;
     pd_metadata_label_address := 128;
     pd_pointer_size := 4;
     pd_size_t_size := 4;
     pd_hmac_key_size := 8;
     pd_hmac_signature_size := 32;
     pd_byteorder := "big" |}.

Definition small_config : gmap string value := config_of small_platform.

Definition small_files : files :=
  list_to_map
    [ ("boot.bin", bytes_of_string "0123456789abcdef");
      ("a.bin", bytes_of_string "image-a");
      ("b.bin", bytes_of_string "image-b, 32 bytes long, no more.");
      ("c.bin", bytes_of_string "image-c, 33 bytes long, one more.");
      ("big.bin", bytes_of_string "0123456789abcdefg");
      ("key", bytes_of_string "secret");
      ("out.bin", replicate 8 x00) ].


(** Stand-ins for the YAML library, enough to run the calculator on a
    store: every non-empty document loads as [example_platform], and a
    configuration is dumped as the list of its keys. *)
Definition example_yaml_load (document : list byte)
    : result (gmap string scalar) :=
  match document with
  | [] => Raise ValueError
  | _ :: _ => Ok (platform_dict example_platform)
  end.

Definition example_yaml_dump (config : gmap string value) : list byte :=
  concat (map (fun entry => bytes_of_string entry.1 ++ [x0a]) (map_to_list config)).

Definition example_repr_list (l : list scalar) : string :=
  String.concat ", " (map py_format l).

(** *** Reading the binary back *)




(** The offsets and the stride a configuration gives the per-image
    fields, and its byte order. *)
Record record_layout : Type := {
  crc_offset : Z;
  length_offset : Z;
  status_offset : Z;
  hmac_offset : Z;
  stride : Z;
  order : string
}.

Definition has_layout (config : gmap string value) (l : record_layout) : Prop :=
  config !! "first_crc_offset" = Some (VScalar (SInt (crc_offset l))) /\
  config !! "first_length_offset" = Some (VScalar (SInt (length_offset l))) /\
  config !! "first_completion_status_offset" =
    Some (VScalar (SInt (status_offset l))) /\
  config !! "first_hmac_offset" = Some (VScalar (SInt (hmac_offset l))) /\
  config !! "size_of_metadata" = Some (VScalar (SInt (stride l))) /\
  config !! "byteorder" = Some (VScalar (SStr (order l))) /\
  (order l = "little" \/ order l = "big").

(** The fields lie in the order of the format, none on another. *)
Definition fields_in_order (l : record_layout) : Prop :=
  0 <= crc_offset l /\
  crc_offset l + 4 <= length_offset l /\
  length_offset l + 4 <= status_offset l /\
  status_offset l + 2 <= hmac_offset l.

(** The values of [image] fit their fields, the signature ending before
    the next record starts. *)
Definition fits_record (l : record_layout) (image : ImageMetadata.t) : Prop :=
  0 <= ImageMetadata.crc image < 2 ^ 32 /\
  0 <= ImageMetadata.length image < 2 ^ 32 /\
  0 <= ImageMetadata.completion_status image < 2 ^ 16 /\
  exists signature,
    ImageMetadata.hmac_signature image = Some signature /\
    hmac_offset l + Z.of_nat (length signature) <= crc_offset l + stride l.

(** The layout of the configuration the calculator returns for [p]. *)
Definition layout_of (p : PlatformDescription) : record_layout :=
  {| crc_offset := first_record_of p + 0 + 4;
     length_offset := first_record_of p + 0 + 4 + 4 + 4 + 4 + pd_pointer_size p;
     status_offset := first_record_of p + 0 + 4 + 4 + 4 + 4 + pd_pointer_size p + 4;
     hmac_offset := first_record_of p + 0 + 4 + 4 + 4 + 4 + pd_pointer_size p + 4 + 2 + 2;
     stride := size_of_metadata_of p;
     order := pd_byteorder p |}.

(** The record the extractor makes of an image under a key. *)
Definition extracted (image_file : string) (image key : list byte)
    : ImageMetadata.t :=
  {| ImageMetadata.crc := Crc32c.crc32c image;
     ImageMetadata.completion_status := 1;
     ImageMetadata.hmac_signature :=
       Some (Hmac.hmac_digest key image hashlib_sha256);
     ImageMetadata.length := Z.of_nat (length image);
     ImageMetadata.file_name := image_file |}.

(** The records of the two images [a.bin] and [b.bin] of [small_files]. *)
Definition small_metadata : GlobalImageMetadata.t :=
  {| GlobalImageMetadata.hmac_key_file := Some "key";
     GlobalImageMetadata.images :=
       [ extracted "a.bin" (bytes_of_string "image-a") (bytes_of_string "secret");
         extracted "b.bin" (bytes_of_string "image-b, 32 bytes long, no more.")
           (bytes_of_string "secret") ] |}.


(** *** What a write keeps of a file *)

(** [content'] holds below [m] what [content] holds there. *)
Definition kept_below (m : nat) (content content' : list byte) : Prop :=
  forall k, (k <= m)%nat -> (k <= length content)%nat ->
    take k content' = take k content.

(** The file has [data] at [offset], inside its length. *)
Definition holds (content : list byte) (offset : nat) (data : list byte) : Prop :=
  read_at content offset (length data) = data /\
  (data = [] \/ (offset + length data <= length content)%nat).

(** Where the field with first offset [first] of record [index] starts. *)
Definition position (l : record_layout) (first : Z) (index : nat) : nat :=
  Z.to_nat (first + stride l * Z.of_nat index).

(** The file has the encoded fields of [image] in record [index]. *)
Definition record_holds (l : record_layout) (content : list byte)
    (index : nat) (image : ImageMetadata.t) : Prop :=
  exists crc_bytes length_bytes status_bytes signature,
    int_to_bytes (ImageMetadata.crc image) 4 (VScalar (SStr (order l))) =
      Ok crc_bytes /\
    int_to_bytes (ImageMetadata.length image) 4 (VScalar (SStr (order l))) =
      Ok length_bytes /\
    int_to_bytes (ImageMetadata.completion_status image) 2
      (VScalar (SStr (order l))) = Ok status_bytes /\
    ImageMetadata.hmac_signature image = Some signature /\
    holds content (position l (crc_offset l) index) crc_bytes /\
    holds content (position l (length_offset l) index) length_bytes /\
    holds content (position l (status_offset l) index) status_bytes /\
    holds content (position l (hmac_offset l) index) signature.


(** *** Vocabulary of the further properties *)

(** The sum of the integer widths of an ordered dictionary. *)
Definition widths_sum (sizes : odict scalar) : Z :=
  foldr (fun kv acc => match kv.2 with SInt n => n + acc | SStr _ => acc end)
        0 sizes.

(** The fields of a platform description whose values the calculator adds
    to an integer. *)
Definition summed_fields : list string :=
  [ "number_of_images"; "metadata_label_address"; "pointer_size";
    "size_t_size"; "hmac_key_size"; "hmac_signature_size" ].

(** [path] is kept under [config/]. *)
Definition in_config_directory (path : string) : Prop :=
  exists name, path = String.append "config/" name.

(** [fs'] is [fs] but for the file [path]. *)
Definition same_but (path : string) (fs fs' : files) : Prop :=
  forall other, other <> path -> fs' !! other = fs !! other.

(** The entry [key] of [config] is the integer [z]. *)
Definition int_entry (config : gmap string value) (key : string) (z : Z) : Prop :=
  config !! key = Some (VScalar (SInt z)).

(** A platform description with texts where the two sizes of the image
    storage are expected. *)
Definition with_text_sizes (p : PlatformDescription) (b m : string)
    : gmap string scalar :=
  <["bootloader_size" := SStr b]>
    (<["max_image_size" := SStr m]> (platform_dict p)).

(** A store with one platform description. *)
Definition board_files : files :=
  {[ "platform_description/board.yml" := bytes_of_string "name: va41620_dev_board" ]}.

(** A platform with a byte order the composer does not know. *)
Definition middle_platform : PlatformDescription :=
  {| pd_name := "middle";
     pd_number_of_images := 1;
     pd_bootloader_size := 16;
     pd_max_image_size := 32;
     pd_metadata_label_address := 64;
     pd_pointer_size := 4;
     pd_size_t_size := 4;
     pd_hmac_key_size := 8;
     pd_hmac_signature_size := 32;
     pd_byteorder := "middle" |}.

(** The record of an image of four gibibytes. *)
Definition huge_image : ImageMetadata.t :=
  {| ImageMetadata.crc := 1;
     ImageMetadata.completion_status := 1;
     ImageMetadata.hmac_signature := Some [];
     ImageMetadata.length := 2 ^ 32;
     ImageMetadata.file_name := "huge.bin" |}.

(** The slots at [addresses] start at byte 0 or later and lie [limit]
    bytes apart at least. *)
Definition slots_apart (limit : Z) (addresses : list Z) : Prop :=
  Forall (fun address => 0 <= address) addresses /\
  forall i j a b, addresses !! i = Some a -> addresses !! j = Some b ->
    (i < j)%nat -> a + limit <= b.

(** The files [images] hold [datas], none longer than [limit]. *)
Definition images_fit (fs : files) (limit : Z) (images : list string)
    (datas : list (list byte)) : Prop :=
  Forall2 (fun image_file data =>
             fs !! image_file = Some data /\ Z.of_nat (length data) <= limit)
          images datas.

(** What the file [path] holds, nothing when it is missing. *)
Definition content_of (fs : files) (path : string) : list byte :=
  default [] (fs !! path).

(** * Properties *)

(** ** Results *)

Lemma bind_Ok {A B} (a : A) (f : A -> result B) : (Ok a ≫= f) = f a.
Proof. reflexivity. Qed.

Lemma bind_Raise {A B} (e : exn) (f : A -> result B) :
  (Raise e ≫= f) = Raise e.
Proof. reflexivity. Qed.

Lemma bind_Ok_inv {A B} (m : result A) (f : A -> result B) (b : B) :
  m ≫= f = Ok b -> exists a, m = Ok a /\ f a = Ok b.
Proof. destruct m as [a|e]; [eauto | discriminate]. Qed.

Lemma getitem_Some {V} (d : gmap string V) k v :
  d !! k = Some v -> getitem d k = Ok v.
Proof. unfold getitem. by intros ->. Qed.



(** ** The layout calculator *)

Section LayoutProperties.

Import Layout.

Lemma describes_platform_dict p : describes (platform_dict p) p.
Proof. unfold describes. reflexivity. Qed.

Lemma describes_getitem platform p k v :
  describes platform p -> platform_dict p !! k = Some v ->
  getitem platform k = Ok v.
Proof.
  intros Hsub Hk. apply getitem_Some. by eapply lookup_weaken.
Qed.

Lemma describes_fields platform p :
  describes platform p ->
  getitem platform "name" = Ok (SStr (pd_name p)) /\
  getitem platform "number_of_images" = Ok (SInt (pd_number_of_images p)) /\
  getitem platform "bootloader_size" = Ok (SInt (pd_bootloader_size p)) /\
  getitem platform "max_image_size" = Ok (SInt (pd_max_image_size p)) /\
  getitem platform "metadata_label_address" = Ok (SInt (pd_metadata_label_address p)) /\
  getitem platform "pointer_size" = Ok (SInt (pd_pointer_size p)) /\
  getitem platform "size_t_size" = Ok (SInt (pd_size_t_size p)) /\
  getitem platform "hmac_key_size" = Ok (SInt (pd_hmac_key_size p)) /\
  getitem platform "hmac_signature_size" = Ok (SInt (pd_hmac_signature_size p)) /\
  getitem platform "byteorder" = Ok (SStr (pd_byteorder p)).
Proof.
  intros H. repeat split; by apply (describes_getitem _ p).
Qed.

Ltac platform_fields H :=
  let F := fresh "F" in
  pose proof (describes_fields _ _ H) as F;
  destruct F as (?F & ?F & ?F & ?F & ?F & ?F & ?F & ?F & ?F & ?F).

Lemma image_begin_addresses_loop_ints platform b m indices addresses :
  getitem platform "bootloader_size" = Ok (SInt b) ->
  getitem platform "max_image_size" = Ok (SInt m) ->
  image_begin_addresses_loop platform indices addresses =
    Ok (addresses ++ map (fun i => SInt (b + i * m)) indices).
Proof.
  intros Hb Hm. revert addresses.
  induction indices as [|i rest IH]; intros addresses; simpl.
  - by rewrite app_nil_r.
  - rewrite Hb, Hm. simpl. rewrite IH. by rewrite <- app_assoc.
Qed.

Lemma generate_image_begin_addresses_describes platform p config :
  describes platform p ->
  generate_image_begin_addresses platform config =
    Ok (<["image_begin_addresses" :=
            VList (map (fun i => SInt (pd_bootloader_size p + i * pd_max_image_size p))
                       (seqZ 0 (pd_number_of_images p)))]> config).
Proof.
  intros H. platform_fields H. unfold generate_image_begin_addresses.
  rewrite F0. simpl.
  by rewrite (image_begin_addresses_loop_ints _ _ _ _ _ F1 F2).
Qed.

Lemma generate_size_of_metadata_describes platform p config :
  describes platform p ->
  generate_size_of_metadata platform config =
    Ok (metadata_sizes_of p,
        <["size_of_metadata" := VScalar (SInt (size_of_metadata_of p))]> config).
Proof.
  intros H. platform_fields H.
  unfold generate_size_of_metadata, IMAGE_METADATA_SIZES_TEMPLATE.
  cbn [resolve_template]. rewrite F4, F7. reflexivity.
Qed.

Lemma generate_global_metadata_sizes_describes platform p :
  describes platform p ->
  generate_global_metadata_sizes platform = Ok (global_metadata_sizes_of p).
Proof.
  intros H. platform_fields H.
  unfold generate_global_metadata_sizes, GLOBAL_METADATA_SIZE_TEMPLATE.
  cbn [resolve_template]. rewrite F5, F6. reflexivity.
Qed.

Lemma generate_offsets_describes platform p config :
  describes platform p ->
  generate_offsets platform config
      (metadata_sizes_of p) (global_metadata_sizes_of p) =
    Ok (<["first_hmac_offset" :=
            VScalar (SInt (first_record_of p + 0 + 4 + 4 + 4 + 4 + pd_pointer_size p + 4 + 2 + 2))]>
       (<["first_completion_status_offset" :=
            VScalar (SInt (first_record_of p + 0 + 4 + 4 + 4 + 4 + pd_pointer_size p + 4))]>
       (<["first_length_offset" :=
            VScalar (SInt (first_record_of p + 0 + 4 + 4 + 4 + 4 + pd_pointer_size p))]>
       (<["first_crc_offset" := VScalar (SInt (first_record_of p + 0 + 4))]>
       (<["first_image_metadata_offset" := VScalar (SInt (first_record_of p))]>
       (<["hmac_key_offset" :=
            VScalar (SInt (pd_metadata_label_address p + 4 + pd_size_t_size p + pd_size_t_size p))]>
        config)))))).
Proof.
  intros H. platform_fields H. unfold generate_offsets, get_offset_of.
  rewrite F3. reflexivity.
Qed.

Lemma build_config_describes platform p :
  describes platform p -> build_config platform = Ok (config_of p).
Proof.
  intros H. platform_fields H. unfold build_config.
  rewrite F. rewrite bind_Ok.
  rewrite (generate_image_begin_addresses_describes _ p) by done.
  rewrite bind_Ok.
  rewrite (generate_size_of_metadata_describes _ p) by done.
  rewrite bind_Ok.
  rewrite (generate_global_metadata_sizes_describes _ p) by done.
  rewrite bind_Ok.
  rewrite (generate_offsets_describes _ p) by done.
  rewrite bind_Ok.
  rewrite F1, F2, F8. reflexivity.
Qed.

Lemma config_of_entries p :
  config_of p !! "image_begin_addresses" =
    Some (VList (map (fun i => SInt (pd_bootloader_size p + i * pd_max_image_size p))
                     (seqZ 0 (pd_number_of_images p)))) /\
  config_of p !! "size_of_metadata" = Some (VScalar (SInt (size_of_metadata_of p))) /\
  config_of p !! "hmac_key_offset" =
    Some (VScalar (SInt (pd_metadata_label_address p + 4 + pd_size_t_size p + pd_size_t_size p))) /\
  config_of p !! "first_image_metadata_offset" =
    Some (VScalar (SInt (first_record_of p))) /\
  config_of p !! "first_crc_offset" =
    Some (VScalar (SInt (first_record_of p + 0 + 4))) /\
  config_of p !! "first_length_offset" =
    Some (VScalar (SInt (first_record_of p + 0 + 4 + 4 + 4 + 4 + pd_pointer_size p))) /\
  config_of p !! "first_completion_status_offset" =
    Some (VScalar (SInt (first_record_of p + 0 + 4 + 4 + 4 + 4 + pd_pointer_size p + 4))) /\
  config_of p !! "first_hmac_offset" =
    Some (VScalar (SInt (first_record_of p + 0 + 4 + 4 + 4 + 4 + pd_pointer_size p + 4 + 2 + 2))) /\
  config_of p !! "bootloader_size" = Some (VScalar (SInt (pd_bootloader_size p))) /\
  config_of p !! "max_image_size" = Some (VScalar (SInt (pd_max_image_size p))) /\
  config_of p !! "byteorder" = Some (VScalar (SStr (pd_byteorder p))).
Proof. unfold config_of. repeat split; by simplify_map_eq. Qed.

(** C1: for a platform description with slot count N the calculator
    returns a configuration whose [image_begin_addresses] has N entries,
    entry [i] being [bootloader_size + i * max_image_size]; for
    [bootloader_size = 0x1000], [max_image_size = 0x8000] and N = 2 the
    entries are [0x1000] and [0x9000]. *)
Theorem image_begin_addresses_formula platform p :
  describes platform p ->
  exists config addresses,
    build_config platform = Ok config /\
    config !! "image_begin_addresses" = Some (VList addresses) /\
    length addresses = Z.to_nat (pd_number_of_images p) /\
    (forall i : nat,
       Z.of_nat i < pd_number_of_images p ->
       addresses !! i =
         Some (SInt (pd_bootloader_size p + Z.of_nat i * pd_max_image_size p))) /\
    (pd_bootloader_size p = 0x1000 -> pd_max_image_size p = 0x8000 ->
     pd_number_of_images p = 2 ->
     addresses = [SInt 0x1000; SInt 0x9000]).
Proof.
  intros H. eexists _, _. split; [by apply build_config_describes|].
  split; [apply config_of_entries|]. split; [|split].
  - by rewrite length_map, length_seqZ.
  - intros i Hi. rewrite list_lookup_fmap, lookup_seqZ_lt by done.
    simpl. by rewrite Z.add_0_l.
  - by intros -> -> ->.
Qed.

Lemma image_begin_addresses_formula_witness :
  describes (platform_dict example_platform) example_platform /\
  exists config addresses,
    build_config (platform_dict example_platform) = Ok config /\
    config !! "image_begin_addresses" = Some (VList addresses) /\
    length addresses = 2%nat /\
    (forall i : nat,
       Z.of_nat i < 2 ->
       addresses !! i = Some (SInt (0x1000 + Z.of_nat i * 0x8000))) /\
    (0x1000 = 0x1000 -> 0x8000 = 0x8000 -> 2 = 2 ->
     addresses = [SInt 0x1000; SInt 0x9000]).
Proof.
  split; [apply describes_platform_dict|].
  apply (image_begin_addresses_formula (platform_dict example_platform)
           example_platform).
  apply describes_platform_dict.
Defined.

(** C3: [size_of_metadata] is the sum of the nine per-image field widths,
    [4+4+4+4+pointer_size+4+2+2+hmac_signature_size]; it is 60 for
    [pointer_size = 4] and [hmac_signature_size = 32]. *)
Theorem size_of_metadata_sum platform p :
  describes platform p ->
  exists config,
    build_config platform = Ok config /\
    config !! "size_of_metadata" =
      Some (VScalar (SInt (4 + 4 + 4 + 4 + pd_pointer_size p + 4 + 2 + 2 +
                           pd_hmac_signature_size p))) /\
    (pd_pointer_size p = 4 -> pd_hmac_signature_size p = 32 ->
     config !! "size_of_metadata" = Some (VScalar (SInt 60))).
Proof.
  intros H. exists (config_of p). split; [by apply build_config_describes|].
  pose proof (config_of_entries p) as (_ & Hsize & _).
  split; [exact Hsize|].
  intros Hp Hs. rewrite Hsize. unfold size_of_metadata_of. by rewrite Hp, Hs.
Qed.

Lemma size_of_metadata_sum_witness :
  describes (platform_dict example_platform) example_platform /\
  exists config,
    build_config (platform_dict example_platform) = Ok config /\
    config !! "size_of_metadata" =
      Some (VScalar (SInt (4 + 4 + 4 + 4 + 4 + 4 + 2 + 2 + 32))) /\
    (4 = 4 -> 32 = 32 ->
     config !! "size_of_metadata" = Some (VScalar (SInt 60))).
Proof.
  split; [apply describes_platform_dict|].
  apply (size_of_metadata_sum (platform_dict example_platform) example_platform).
  apply describes_platform_dict.
Defined.

(** C2: every offset the calculator stores is [metadata_label_address]
    plus the widths of the fields before the requested one, in the
    global field order followed by the per-image field order:
    [hmac_key_offset] for [hmacKey1], [first_image_metadata_offset]
    for the marker [imageMetadata], and the four [first_*_offset] entries
    for [crc], [length], [completionStatus] and [hmacSignature]. *)
Theorem offsets_accumulate_widths platform p :
  describes platform p ->
  let base := pd_metadata_label_address p in
  let record := first_record_of p in
  exists config,
    build_config platform = Ok config /\
    offset_entry config "hmac_key_offset" p "hmacKey1"
      (base + (4 + pd_size_t_size p + pd_size_t_size p)) /\
    offset_entry config "first_image_metadata_offset" p "imageMetadata" record /\
    offset_entry config "first_crc_offset" p "crc" (record + 4) /\
    offset_entry config "first_length_offset" p "length"
      (record + (4 + 4 + 4 + 4 + pd_pointer_size p)) /\
    offset_entry config "first_completion_status_offset" p "completionStatus"
      (record + (4 + 4 + 4 + 4 + pd_pointer_size p + 4)) /\
    offset_entry config "first_hmac_offset" p "hmacSignature"
      (record + (4 + 4 + 4 + 4 + pd_pointer_size p + 4 + 2 + 2)).
Proof.
  intros H base record. exists (config_of p).
  split; [by apply build_config_describes|].
  pose proof (config_of_entries p)
    as (_ & _ & Hkey & Hfirst & Hcrc & Hlen & Hcs & Hhmac & _).
  subst base record. unfold offset_entry, Format.offset_of, first_record_of.
  rewrite Hkey, Hfirst, Hcrc, Hlen, Hcs, Hhmac. unfold first_record_of.
  repeat split; simpl; f_equal; first [lia | do 2 f_equal; lia].
Qed.

Lemma offsets_accumulate_widths_witness :
  describes (platform_dict example_platform) example_platform /\
  exists config,
    build_config (platform_dict example_platform) = Ok config /\
    offset_entry config "hmac_key_offset" example_platform "hmacKey1" 0x2000c /\
    offset_entry config "first_image_metadata_offset" example_platform
      "imageMetadata" 0x2006c /\
    offset_entry config "first_crc_offset" example_platform "crc" 0x20070 /\
    offset_entry config "first_length_offset" example_platform "length" 0x20080 /\
    offset_entry config "first_completion_status_offset" example_platform
      "completionStatus" 0x20084 /\
    offset_entry config "first_hmac_offset" example_platform "hmacSignature" 0x20088.
Proof.
  split; [apply describes_platform_dict|].
  apply (offsets_accumulate_widths (platform_dict example_platform)
           example_platform).
  apply describes_platform_dict.
Defined.

(** A loop of [get_offset_of] that does not meet [prop] falls through
    with the widths added. *)
Lemma walk_sizes_unknown prop sizes offset :
  int_widths sizes -> prop ∉ odict_keys sizes ->
  exists offset', walk_sizes prop sizes (SInt offset) = Ok (Continue (SInt offset')).
Proof.
  intros Hint. revert offset.
  induction Hint as [|[key width] sizes [n Hn] _ IH]; intros offset Hprop.
  - by eexists.
  - simpl in *. subst width. apply not_elem_of_cons in Hprop as [Hne Hprop].
    rewrite bool_decide_eq_false_2 by done. simpl. by apply IH.
Qed.

(** C9: for a property name that is in neither field order,
    [get_offset_of] returns 0 and raises nothing. *)
Theorem get_offset_of_unknown prop platform metadata_sizes global_metadata_sizes base :
  platform !! "metadata_label_address" = Some (SInt base) ->
  int_widths global_metadata_sizes ->
  int_widths metadata_sizes ->
  prop ∉ odict_keys global_metadata_sizes ->
  prop ∉ odict_keys metadata_sizes ->
  get_offset_of prop platform metadata_sizes global_metadata_sizes = Ok (SInt 0).
Proof.
  intros Hbase Hg Hm Hng Hnm. unfold get_offset_of.
  rewrite (getitem_Some _ _ _ Hbase), bind_Ok.
  destruct (walk_sizes_unknown prop _ base Hg Hng) as [o ->].
  rewrite bind_Ok.
  destruct (walk_sizes_unknown prop _ o Hm Hnm) as [o' ->].
  reflexivity.
Qed.

Lemma int_widths_metadata_sizes_of p : int_widths (metadata_sizes_of p).
Proof. repeat constructor; by eexists. Qed.

Lemma int_widths_global_metadata_sizes_of p :
  int_widths (global_metadata_sizes_of p).
Proof. repeat constructor; by eexists. Qed.

Lemma get_offset_of_unknown_witness :
  get_offset_of "crcc" (platform_dict example_platform)
    (metadata_sizes_of example_platform)
    (global_metadata_sizes_of example_platform) = Ok (SInt 0).
Proof.
  apply (get_offset_of_unknown "crcc" (platform_dict example_platform)
           (metadata_sizes_of example_platform)
           (global_metadata_sizes_of example_platform) 0x20000).
  - reflexivity.
  - apply int_widths_global_metadata_sizes_of.
  - apply int_widths_metadata_sizes_of.
  - unfold odict_keys. simpl. intros Hin.
    repeat (apply elem_of_cons in Hin as [Hin|Hin]; [discriminate|]).
    by apply elem_of_nil in Hin.
  - unfold odict_keys. simpl. intros Hin.
    repeat (apply elem_of_cons in Hin as [Hin|Hin]; [discriminate|]).
    by apply elem_of_nil in Hin.
Defined.

(** *** Failure on an incomplete description *)


























End LayoutProperties.

(** ** Regenerating a configuration *)

Section Determinism.

Import Layout.

Variable yaml_load : list byte -> result (gmap string scalar).
Variable yaml_dump : gmap string value -> list byte.
Variable repr_list : list scalar -> string.

Lemma generate_config_effect platform_filename (fs : files) :
  let path := String.append PLATFORM_DESCRIPTION_PATH
                (String.append "/" platform_filename) in
  (exists e,
     generate_config yaml_load yaml_dump repr_list platform_filename fs =
       (Raise e, fs) /\
     forall fs' : files,
       fs' !! path = fs !! path ->
       generate_config yaml_load yaml_dump repr_list platform_filename fs' =
         (Raise e, fs')) \/
  (exists name content,
     generate_config yaml_load yaml_dump repr_list platform_filename fs =
       (Ok tt, <[String.append "config" name := content]> fs) /\
     forall fs' : files,
       fs' !! path = fs !! path ->
       generate_config yaml_load yaml_dump repr_list platform_filename fs' =
         (Ok tt, <[String.append "config" name := content]> fs')).
Proof.
  intros path. unfold generate_config. fold path.
  unfold mbind, io_bind, read_file, lift, save_config, store.
  destruct (fs !! path) as [content|] eqn:Hfile.
  - destruct (yaml_load content) as [platform|e] eqn:Hload.
    + destruct (build_config platform) as [config|e] eqn:Hbuild.
      * destruct (getitem config "name") as [name|e] eqn:Hname.
        -- right. eexists _, _. split; [reflexivity|].
           intros fs' ->. rewrite Hload, Hbuild.
           unfold mbind, io_bind, lift. rewrite Hname. reflexivity.
        -- left. exists e. split; [reflexivity|].
           intros fs' ->. rewrite Hload, Hbuild.
           unfold mbind, io_bind, lift. rewrite Hname. reflexivity.
      * left. exists e. split; [reflexivity|].
        intros fs' ->. by rewrite Hload, Hbuild.
    + left. exists e. split; [reflexivity|]. intros fs' ->. by rewrite Hload.
  - left. eexists. split; [reflexivity|]. intros fs' ->. reflexivity.
Qed.

(** C7: the calculator is deterministic. Run from two stores that hold
    the same platform description, it ends the same way and, when it
    succeeds, persists the same bytes under the same path; run a second
    time on the store it left, it ends the same way and leaves the store
    as it is. *)
Theorem generate_config_deterministic platform_filename (fs1 fs2 : files) :
  let generate := generate_config yaml_load yaml_dump repr_list platform_filename in
  let path := String.append PLATFORM_DESCRIPTION_PATH
                (String.append "/" platform_filename) in
  fs1 !! path = fs2 !! path ->
  (generate fs1).1 = (generate fs2).1 /\
  (exists persisted : option (string * list byte),
     (generate fs1).2 = from_option (fun '(f, c) => <[f := c]> fs1) fs1 persisted /\
     (generate fs2).2 = from_option (fun '(f, c) => <[f := c]> fs2) fs2 persisted) /\
  generate (generate fs1).2 = generate fs1.
Proof.
  intros generate path Hsame. subst generate.
  destruct (generate_config_effect platform_filename fs1)
    as [(e & H1 & Hother) | (name & content & H1 & Hother)]; fold path in Hother.
  - rewrite H1, (Hother fs2) by done. simpl. split; [done|]. split.
    + by exists None.
    + done.
  - rewrite H1, (Hother fs2) by done. simpl. split; [done|]. split.
    + by exists (Some (String.append "config" name, content)).
    + rewrite Hother.
      * by rewrite insert_insert_eq.
      * apply lookup_insert_ne. unfold path. discriminate.
Qed.

End Determinism.

Lemma generate_config_deterministic_witness :
  let generate :=
    Layout.generate_config example_yaml_load example_yaml_dump example_repr_list
      "board.yml" in
  let fs1 : files :=
    {[ "platform_description/board.yml" := bytes_of_string "name: va41620_dev_board" ]} in
  let fs2 : files :=
    <[ "config/va41620_dev_board.yml" := bytes_of_string "stale" ]> fs1 in
  (generate fs1).1 = (generate fs2).1 /\
  (exists persisted : option (string * list byte),
     (generate fs1).2 = from_option (fun '(f, c) => <[f := c]> fs1) fs1 persisted /\
     (generate fs2).2 = from_option (fun '(f, c) => <[f := c]> fs2) fs2 persisted) /\
  generate (generate fs1).2 = generate fs1.
Proof.
  intros generate fs1 fs2.
  apply (generate_config_deterministic example_yaml_load example_yaml_dump
           example_repr_list "board.yml" fs1 fs2).
  reflexivity.
Defined.

(** ** Bytes, integers and files *)

Lemma Z_of_byte_range b : 0 <= Z_of_byte b < 256.
Proof.
  unfold Z_of_byte. pose proof (Byte.to_N_bounded b). lia.
Qed.

Lemma Z_of_byte_of_Z z : Z_of_byte (byte_of_Z z) = z mod 256.
Proof.
  unfold Z_of_byte, byte_of_Z.
  pose proof (Z.mod_pos_bound z 256 ltac:(lia)) as Hz.
  destruct (Byte.of_N (Z.to_N (z mod 256))) as [b|] eqn:Hb; simpl.
  - apply Byte.to_of_N in Hb. rewrite Hb. lia.
  - apply Byte.of_N_None_iff in Hb. lia.
Qed.

Lemma length_le_bytes n v : length (le_bytes n v) = n.
Proof. revert v. induction n as [|n IH]; intros v; simpl; [done|by rewrite IH]. Qed.

Lemma length_be_bytes n v : length (be_bytes n v) = n.
Proof. unfold be_bytes. by rewrite length_rev, length_le_bytes. Qed.

Lemma le_int_le_bytes n v :
  0 <= v < 256 ^ Z.of_nat n -> le_int (le_bytes n v) = v.
Proof.
  revert v. induction n as [|n IH]; intros v Hv.
  - simpl in *. lia.
  - cbn [le_bytes le_int]. rewrite Z_of_byte_of_Z, IH.
    + pose proof (Z.div_mod v 256 ltac:(lia)). lia.
    + rewrite Nat2Z.inj_succ, Z.pow_succ_r in Hv by lia.
      split; [apply Z.div_pos; lia|].
      apply Z.div_lt_upper_bound; lia.
Qed.

Lemma be_int_be_bytes n v :
  0 <= v < 256 ^ Z.of_nat n -> be_int (be_bytes n v) = v.
Proof.
  intros Hv. unfold be_int, be_bytes. rewrite rev_involutive.
  by apply le_int_le_bytes.
Qed.

(** [to_bytes] succeeds exactly on the values that fit, gives as many
    bytes as asked for, and [from_bytes] reads the value back. *)
Lemma int_to_bytes_Ok v n byteorder bytes :
  int_to_bytes v n byteorder = Ok bytes ->
  0 <= v < 256 ^ Z.of_nat n /\ length bytes = n /\
  int_from_bytes bytes byteorder = Ok v.
Proof.
  unfold int_to_bytes, int_from_bytes.
  destruct byteorder as [[?|order]|]; try discriminate.
  destruct (bool_decide (order = "little")) eqn:Hl; simpl.
  - repeat case_bool_decide; try discriminate. intros [= <-].
    split; [lia|]. split; [apply length_le_bytes|].
    f_equal. apply le_int_le_bytes. lia.
  - destruct (bool_decide (order = "big")) eqn:Hb; [|discriminate].
    repeat case_bool_decide; try discriminate. intros [= <-].
    split; [lia|]. split; [apply length_be_bytes|].
    f_equal. apply be_int_be_bytes. lia.
Qed.

Lemma int_to_bytes_range v n byteorder :
  ~ (0 <= v < 256 ^ Z.of_nat n) ->
  exists e, int_to_bytes v n byteorder = Raise e.
Proof.
  intros Hv. destruct (int_to_bytes v n byteorder) as [bytes|e] eqn:H.
  - apply int_to_bytes_Ok in H. tauto.
  - by exists e.
Qed.

Lemma int_to_bytes_fits v n order :
  order = "little" \/ order = "big" ->
  0 <= v < 256 ^ Z.of_nat n ->
  exists bytes,
    int_to_bytes v n (VScalar (SStr order)) = Ok bytes /\
    length bytes = n /\
    int_from_bytes bytes (VScalar (SStr order)) = Ok v.
Proof.
  intros Horder Hv.
  destruct (int_to_bytes v n (VScalar (SStr order))) as [bytes|e] eqn:H.
  - exists bytes. split; [done|]. by apply int_to_bytes_Ok in H as (_ & ? & ?).
  - exfalso. unfold int_to_bytes in H.
    destruct Horder as [-> | ->]; simpl in H;
      repeat case_bool_decide; try discriminate; lia.
Qed.

Lemma length_write_at content offset data :
  data <> [] ->
  length (write_at content offset data) =
    (length content `max` (offset + length data))%nat.
Proof.
  intros Hdata. destruct data as [|b data]; [done|]. unfold write_at.
  rewrite !length_app, length_take, length_replicate, length_drop. lia.
Qed.

Lemma length_write_at_ge content offset data :
  (length content <= length (write_at content offset data))%nat.
Proof.
  destruct data as [|b data]; [done|].
  rewrite length_write_at by done. lia.
Qed.

(** Writing at [offset] keeps what the file holds before [offset]. *)
Lemma take_write_at content offset data m :
  (m <= offset)%nat -> (m <= length content)%nat ->
  take m (write_at content offset data) = take m content.
Proof.
  intros Hm Hlen. destruct data as [|b data]; [done|]. unfold write_at.
  rewrite take_app_le by (rewrite length_take; lia).
  rewrite take_take. f_equal. lia.
Qed.

(** What was written is read back. *)
Lemma read_at_write_at content offset data :
  read_at (write_at content offset data) offset (length data) = data.
Proof.
  unfold read_at. destruct data as [|b data]; [by rewrite take_0|].
  unfold write_at. rewrite app_assoc.
  rewrite drop_app_length'
    by (rewrite length_app, length_take, length_replicate; lia).
  apply take_app_length.
Qed.

Lemma read_at_take content offset n m :
  (offset + n <= m)%nat ->
  read_at content offset n = drop offset (take (offset + n) (take m content)).
Proof.
  intros Hm. unfold read_at. rewrite take_drop_commute, take_take.
  do 2 f_equal. lia.
Qed.

(** A read below [m] sees the same bytes in two files that agree below
    [m]. *)
Lemma read_at_agree content content' offset n m :
  (offset + n <= m)%nat ->
  take m content' = take m content ->
  read_at content' offset n = read_at content offset n.
Proof.
  intros Hm Htake.
  rewrite (read_at_take content' offset n m), (read_at_take content offset n m)
    by done.
  by rewrite Htake.
Qed.

(** ** The checksum and the signature *)

Lemma lxor_range a b n :
  0 <= n -> 0 <= a < 2 ^ n -> 0 <= b < 2 ^ n -> 0 <= Z.lxor a b < 2 ^ n.
Proof.
  intros Hn Ha Hb.
  assert (Hlog : forall x, 0 <= x < 2 ^ n -> Z.log2 x < n \/ x = 0).
  { intros x Hx. destruct (Z.eq_dec x 0) as [->|Hne]; [by right|].
    left. apply Z.log2_lt_pow2; lia. }
  assert (0 <= Z.lxor a b) as Hnonneg by (apply Z.lxor_nonneg; lia).
  split; [done|].
  destruct (Z.eq_dec (Z.lxor a b) 0) as [->|Hne]; [lia|].
  apply Z.log2_lt_pow2; [lia|].
  pose proof (Z.log2_lxor a b ltac:(lia) ltac:(lia)) as Hmax.
  destruct (Hlog a Ha) as [?| ->], (Hlog b Hb) as [?| ->];
    rewrite ?Z.lxor_0_l, ?Z.lxor_0_r in *; simpl in *; try lia.
  all: destruct (Z.eq_dec n 0) as [->|?]; simpl in *; lia.
Qed.

Module Crc32cProperties.

Import Crc32c.

Lemma shift_range crc : 0 <= crc < 2 ^ 32 -> 0 <= shift crc < 2 ^ 32.
Proof.
  intros Hcrc. unfold shift.
  assert (0 <= Z.shiftr crc 1 < 2 ^ 32) as Hshift.
  { rewrite Z.shiftr_div_pow2 by lia. change (2 ^ 1) with 2.
    split; [apply Z.div_pos; lia|]. apply Z.div_lt_upper_bound; lia. }
  destruct (Z.testbit crc 0); [|done].
  apply lxor_range; [lia|done|]. unfold polynomial. lia.
Qed.

Lemma update_range crc b : 0 <= crc < 2 ^ 32 -> 0 <= update crc b < 2 ^ 32.
Proof.
  intros Hcrc. unfold update.
  assert (0 <= Z.lxor crc (Z_of_byte b) < 2 ^ 32) as Hxor.
  { apply lxor_range; [lia|done|]. pose proof (Z_of_byte_range b). lia. }
  generalize dependent (Z.lxor crc (Z_of_byte b)). intros x Hx.
  do 8 (rewrite Nat.iter_succ; apply shift_range). done.
Qed.

Lemma fold_update_range data crc :
  0 <= crc < 2 ^ 32 -> 0 <= fold_left update data crc < 2 ^ 32.
Proof.
  revert crc. induction data as [|b data IH]; intros crc Hcrc; simpl; [done|].
  apply IH. by apply update_range.
Qed.

Lemma crc32c_range data : 0 <= crc32c data < 2 ^ 32.
Proof.
  unfold crc32c. apply lxor_range; [lia| |lia].
  apply fold_update_range. lia.
Qed.

(** The check value of the CRC-32C parameters. *)
Example crc32c_check : crc32c (bytes_of_string "123456789") = 0xE3069283.
Proof. vm_compute. reflexivity. Qed.

Example crc32c_empty : crc32c [] = 0.
Proof. vm_compute. reflexivity. Qed.

End Crc32cProperties.

Module Sha256Properties.

Import Sha256.

Example round_constants :
  length K = 64%nat /\ K !! 0%nat = Some 0x428a2f98 /\
  K !! 63%nat = Some 0xc67178f2 /\ ha initial = 0x6a09e667 /\
  hh initial = 0x5be0cd19.
Proof. repeat split. Qed.

Lemma length_output h : length (output h) = 32%nat.
Proof. unfold output. by rewrite !length_app, !length_be_bytes. Qed.

Lemma length_sha256 message : length (sha256 message) = 32%nat.
Proof. apply length_output. Qed.

(** The one-block and the two-block example of FIPS 180-4. *)
Example sha256_abc :
  map Z_of_byte (sha256 (bytes_of_string "abc")) =
    [ 0xba; 0x78; 0x16; 0xbf; 0x8f; 0x01; 0xcf; 0xea;
      0x41; 0x41; 0x40; 0xde; 0x5d; 0xae; 0x22; 0x23;
      0xb0; 0x03; 0x61; 0xa3; 0x96; 0x17; 0x7a; 0x9c;
      0xb4; 0x10; 0xff; 0x61; 0xf2; 0x00; 0x15; 0xad ].
Proof. vm_compute. reflexivity. Qed.

Example sha256_two_blocks :
  map Z_of_byte
    (sha256 (bytes_of_string
       "abcdbcdecdefdefgefghfghighijhijkijkljklmklmnlmnomnopnopq")) =
    [ 0x24; 0x8d; 0x6a; 0x61; 0xd2; 0x06; 0x38; 0xb8;
      0xe5; 0xc0; 0x26; 0x93; 0x0c; 0x3e; 0x60; 0x39;
      0xa3; 0x3c; 0xe4; 0x59; 0x64; 0xff; 0x21; 0x67;
      0xf6; 0xec; 0xed; 0xd4; 0x19; 0xdb; 0x06; 0xc1 ].
Proof. vm_compute. reflexivity. Qed.

End Sha256Properties.

Module HmacProperties.

Import Hmac.

Lemma length_hmac_sha256 key msg :
  length (hmac_digest key msg hashlib_sha256) = 32%nat.
Proof.
  unfold hmac_digest. cbn [digest hashlib_sha256].
  apply Sha256Properties.length_sha256.
Qed.

(** Test case 2 of RFC 4231. *)
Example hmac_sha256_rfc4231_2 :
  map Z_of_byte
    (hmac_digest (bytes_of_string "Jefe")
       (bytes_of_string "what do ya want for nothing?") hashlib_sha256) =
    [ 0x5b; 0xdc; 0xc1; 0x46; 0xbf; 0x60; 0x75; 0x4e;
      0x6a; 0x04; 0x24; 0x26; 0x08; 0x95; 0x75; 0xc7;
      0x5a; 0x00; 0x3f; 0x08; 0x9d; 0x27; 0x39; 0x83;
      0x9d; 0xec; 0x58; 0xb9; 0x64; 0xec; 0x38; 0x43 ].
Proof. vm_compute. reflexivity. Qed.

(** Test case 6 of RFC 4231: a key longer than the block is hashed
    first. *)
Example hmac_sha256_rfc4231_6 :
  map Z_of_byte
    (hmac_digest (replicate 131 xaa)
       (bytes_of_string
          "Test Using Larger Than Block-Size Key - Hash Key First")
       hashlib_sha256) =
    [ 0x60; 0xe4; 0x31; 0x59; 0x1e; 0xe0; 0xb6; 0x7f;
      0x0d; 0x8a; 0x26; 0xaa; 0xcb; 0xf5; 0xb7; 0x7f;
      0x8e; 0x0b; 0xc6; 0x21; 0x37; 0x28; 0xc5; 0x14;
      0x05; 0x46; 0x04; 0x0f; 0x0e; 0xe3; 0x7f; 0x54 ].
Proof. vm_compute. reflexivity. Qed.

End HmacProperties.

(** ** Code on files *)

Lemma io_bind_Ok {A B} (m : io A) (f : A -> io B) fs a fs' :
  m fs = (Ok a, fs') -> (m ≫= f) fs = f a fs'.
Proof. intros H. unfold mbind, io_bind. by rewrite H. Qed.

Lemma io_bind_Raise {A B} (m : io A) (f : A -> io B) fs e fs' :
  m fs = (Raise e, fs') -> (m ≫= f) fs = (Raise e, fs').
Proof. intros H. unfold mbind, io_bind. by rewrite H. Qed.

Lemma io_bind_inv {A B} (m : io A) (f : A -> io B) fs b fs' :
  (m ≫= f) fs = (Ok b, fs') ->
  exists a fs1, m fs = (Ok a, fs1) /\ f a fs1 = (Ok b, fs').
Proof.
  unfold mbind, io_bind. destruct (m fs) as [[a|e] fs1]; [eauto|discriminate].
Qed.

Lemma read_file_Some path (fs : files) content :
  fs !! path = Some content -> read_file path fs = (Ok content, fs).
Proof. unfold read_file. by intros ->. Qed.

Lemma read_file_unchanged path (fs : files) r fs' :
  read_file path fs = (r, fs') -> fs' = fs.
Proof. unfold read_file. destruct (fs !! path); by intros [= _ <-]. Qed.

Section ComposerProperties.

Import Composer.

Lemma get_length_Some path (fs : files) content :
  fs !! path = Some content ->
  get_length path fs = (Ok (Z.of_nat (length content)), fs).
Proof.
  intros H. unfold get_length.
  by rewrite (io_bind_Ok _ _ _ _ _ (read_file_Some _ _ _ H)).
Qed.

(** C6: from an image file and a key file the extractor makes a record
    whose [crc] is the CRC-32C of the whole image, whose [length] is the
    size of the image file, whose [hmac_signature] is the HMAC-SHA-256
    digest, all 32 bytes of it, of the whole image under the whole key
    file, and whose [completion_status] is 1; the record is appended to
    the records collected so far. *)
Theorem extract_image_metadata_record global_metadata image_file key_file
    (fs : files) image key :
  fs !! image_file = Some image ->
  fs !! key_file = Some key ->
  let record :=
    {| ImageMetadata.crc := Crc32c.crc32c image;
       ImageMetadata.completion_status := 1;
       ImageMetadata.hmac_signature :=
         Some (Hmac.hmac_digest key image hashlib_sha256);
       ImageMetadata.length := Z.of_nat (length image);
       ImageMetadata.file_name := image_file |} in
  extract_image_metadata global_metadata image_file key_file fs =
    (Ok {| GlobalImageMetadata.hmac_key_file := Some key_file;
           GlobalImageMetadata.images :=
             GlobalImageMetadata.images global_metadata ++ [record] |},
     fs) /\
  length (Hmac.hmac_digest key image hashlib_sha256) = 32%nat /\
  0 <= Crc32c.crc32c image < 2 ^ 32.
Proof.
  intros Himage Hkey record. split; [|split].
  - unfold extract_image_metadata, calculate_crc32c, calculate_hmac_signature.
    rewrite (io_bind_Ok _ _ fs (Crc32c.crc32c image) fs)
      by by rewrite (io_bind_Ok _ _ _ _ _ (read_file_Some _ _ _ Himage)).
    rewrite (io_bind_Ok _ _ _ _ _ (get_length_Some _ _ _ Himage)).
    rewrite (io_bind_Ok _ _ fs (Hmac.hmac_digest key image hashlib_sha256) fs).
    + reflexivity.
    + rewrite (io_bind_Ok _ _ _ _ _ (read_file_Some _ _ _ Hkey)).
      by rewrite (io_bind_Ok _ _ _ _ _ (read_file_Some _ _ _ Himage)).
  - apply HmacProperties.length_hmac_sha256.
  - apply Crc32cProperties.crc32c_range.
Qed.

Lemma extract_image_metadata_record_witness :
  extract_image_metadata GlobalImageMetadata.init "a.bin" "key" small_files =
    (Ok {| GlobalImageMetadata.hmac_key_file := Some "key";
           GlobalImageMetadata.images :=
             [ {| ImageMetadata.crc := Crc32c.crc32c (bytes_of_string "image-a");
                  ImageMetadata.completion_status := 1;
                  ImageMetadata.hmac_signature :=
                    Some (Hmac.hmac_digest (bytes_of_string "secret")
                            (bytes_of_string "image-a") hashlib_sha256);
                  ImageMetadata.length := 7;
                  ImageMetadata.file_name := "a.bin" |} ] |},
     small_files) /\
  length (Hmac.hmac_digest (bytes_of_string "secret")
            (bytes_of_string "image-a") hashlib_sha256) = 32%nat /\
  0 <= Crc32c.crc32c (bytes_of_string "image-a") < 2 ^ 32.
Proof.
  apply (extract_image_metadata_record GlobalImageMetadata.init "a.bin" "key"
           small_files (bytes_of_string "image-a") (bytes_of_string "secret"));
    reflexivity.
Defined.

(** *** Writing an integer field *)

Lemma patch_Ok output_file offset data (fs fs' : files) :
  patch output_file offset data fs = (Ok tt, fs') ->
  exists content position bytes,
    fs !! output_file = Some content /\
    seek offset = Ok position /\
    data = Ok bytes /\
    fs' = <[output_file := write_at content position bytes]> fs.
Proof.
  unfold patch, mbind, io_bind, read_file, lift, store.
  destruct (fs !! output_file) as [content|]; [|discriminate].
  destruct (seek offset) as [position|]; [|discriminate].
  destruct data as [bytes|]; [|discriminate].
  intros [= <-]. by eexists _, _, _.
Qed.

Lemma patch_Raise output_file offset data (fs fs' : files) e :
  patch output_file offset data fs = (Raise e, fs') -> fs' = fs.
Proof.
  unfold patch, mbind, io_bind, read_file, lift, store.
  destruct (fs !! output_file) as [content|]; [|by intros [= _ <-]].
  destruct (seek offset) as [position|]; [|by intros [= _ <-]].
  destruct data as [bytes|]; [discriminate|by intros [= _ <-]].
Qed.

Lemma patch_data_Raise output_file offset {e} (fs : files) :
  exists e', patch output_file offset (Raise e) fs = (Raise e', fs).
Proof.
  unfold patch, mbind, io_bind, read_file, lift, store.
  destruct (fs !! output_file) as [content|]; [|by eexists].
  destruct (seek offset) as [position|]; by eexists.
Qed.

(** The shape [write_crc], [write_length] and [write_completion_status]
    share. *)
Lemma write_int_fits output_file first v n index config (fs fs' : files) :
  (offset ← lift (metadata_offset config first index);
   patch output_file offset
     (byteorder ← getitem config "byteorder"; int_to_bytes v n byteorder)) fs =
    (Ok tt, fs') ->
  0 <= v < 256 ^ Z.of_nat n /\ writes_bytes n output_file fs fs'.
Proof.
  intros H. apply io_bind_inv in H as (offset & fs1 & Hoffset & H).
  unfold lift in Hoffset. injection Hoffset as Hoffset <-.
  apply patch_Ok in H as (content & position & bytes & Hfile & _ & Hdata & ->).
  apply bind_Ok_inv in Hdata as (byteorder & _ & Hbytes).
  apply int_to_bytes_Ok in Hbytes as (Hv & Hlen & _).
  split; [done|]. by exists content, position, bytes.
Qed.

Lemma write_int_out_of_range output_file first v n index config (fs : files) :
  ~ (0 <= v < 256 ^ Z.of_nat n) ->
  exists e,
    (offset ← lift (metadata_offset config first index);
     patch output_file offset
       (byteorder ← getitem config "byteorder"; int_to_bytes v n byteorder)) fs =
      (Raise e, fs).
Proof.
  intros Hv. unfold mbind at 1. unfold io_bind, lift.
  destruct (metadata_offset config first index) as [offset|e]; [|by eexists].
  destruct (getitem config "byteorder") as [byteorder|e]; simpl.
  - destruct (int_to_bytes_range v n byteorder Hv) as [e ->].
    apply patch_data_Raise.
  - apply patch_data_Raise.
Qed.

(** C10: [write_crc] and [write_length] succeed only for a value [v] with
    [0 <= v < 2^32] and then write four bytes; [write_completion_status]
    succeeds only for [0 <= v < 2^16] and then writes two bytes; for a
    value out of its range each of them raises and leaves the file as it
    is. *)
Theorem write_int_ranges output_file v index config (fs : files) :
  ((forall fs', write_crc output_file v index config fs = (Ok tt, fs') ->
      0 <= v < 2 ^ 32 /\ writes_bytes 4 output_file fs fs') /\
   (~ (0 <= v < 2 ^ 32) ->
      exists e, write_crc output_file v index config fs = (Raise e, fs))) /\
  ((forall fs', write_length output_file v index config fs = (Ok tt, fs') ->
      0 <= v < 2 ^ 32 /\ writes_bytes 4 output_file fs fs') /\
   (~ (0 <= v < 2 ^ 32) ->
      exists e, write_length output_file v index config fs = (Raise e, fs))) /\
  ((forall fs', write_completion_status output_file v index config fs = (Ok tt, fs') ->
      0 <= v < 2 ^ 16 /\ writes_bytes 2 output_file fs fs') /\
   (~ (0 <= v < 2 ^ 16) ->
      exists e, write_completion_status output_file v index config fs = (Raise e, fs))).
Proof.
  split; [|split]; (split; [intros fs' H | intros Hv]).
  - by apply (write_int_fits _ _ _ 4) in H.
  - by apply (write_int_out_of_range _ _ _ 4).
  - by apply (write_int_fits _ _ _ 4) in H.
  - by apply (write_int_out_of_range _ _ _ 4).
  - by apply (write_int_fits _ _ _ 2) in H.
  - by apply (write_int_out_of_range _ _ _ 2).
Qed.

Lemma write_int_ranges_witness :
  (0 <= 0xDEADBEEF < 2 ^ 32 /\
   writes_bytes 4 "out.bin" small_files
     (write_crc "out.bin" 0xDEADBEEF 0 small_config small_files).2) /\
  (exists e,
     write_length "out.bin" (2 ^ 32) 0 small_config small_files =
       (Raise e, small_files)) /\
  (exists e,
     write_completion_status "out.bin" (-1) 0 small_config small_files =
       (Raise e, small_files)).
Proof.
  split; [|split].
  - destruct (write_int_ranges "out.bin" 0xDEADBEEF 0 small_config small_files)
      as [[Hcrc _] _].
    apply Hcrc. vm_compute. reflexivity.
  - destruct (write_int_ranges "out.bin" (2 ^ 32) 0 small_config small_files)
      as (_ & [_ Hlength] & _).
    apply Hlength. lia.
  - destruct (write_int_ranges "out.bin" (-1) 0 small_config small_files)
      as (_ & _ & [_ Hstatus]).
    apply Hstatus. lia.
Defined.

(** *** The size checks *)

Section Placement.

Variable run : list string -> files -> files.

Lemma create_output_binary_fits bootloader_file output_file config
    (fs : files) bootloader limit :
  config !! "bootloader_size" = Some (VScalar (SInt limit)) ->
  fs !! bootloader_file = Some bootloader ->
  Z.of_nat (length bootloader) <= limit ->
  create_output_binary run bootloader_file output_file config fs =
    (Ok tt, run (dd_command bootloader_file output_file (str_of_Z 0)) fs).
Proof.
  intros Hlimit Hfile Hfits. unfold create_output_binary.
  rewrite (io_bind_Ok _ _ _ _ _ (get_length_Some _ _ _ Hfile)).
  rewrite (getitem_Some _ _ _ Hlimit).
  unfold mbind, io_bind, lift.
  by rewrite bool_decide_eq_false_2 by lia.
Qed.

Lemma create_output_binary_too_big bootloader_file output_file config
    (fs : files) bootloader limit :
  config !! "bootloader_size" = Some (VScalar (SInt limit)) ->
  fs !! bootloader_file = Some bootloader ->
  limit < Z.of_nat (length bootloader) ->
  create_output_binary run bootloader_file output_file config fs =
    (Raise (Exception (bootloader_too_big (Z.of_nat (length bootloader)) limit)),
     fs).
Proof.
  intros Hlimit Hfile Hbig. unfold create_output_binary.
  rewrite (io_bind_Ok _ _ _ _ _ (get_length_Some _ _ _ Hfile)).
  rewrite (getitem_Some _ _ _ Hlimit).
  unfold mbind, io_bind, lift.
  by rewrite bool_decide_eq_true_2 by lia.
Qed.

Lemma append_image_fits image_file index output_file config (fs : files)
    image limit addresses address :
  config !! "max_image_size" = Some (VScalar (SInt limit)) ->
  config !! "image_begin_addresses" = Some (VList addresses) ->
  addresses !! index = Some address ->
  fs !! image_file = Some image ->
  Z.of_nat (length image) <= limit ->
  append_image run image_file index output_file config fs =
    (Ok tt, run (dd_command image_file output_file (py_format address)) fs).
Proof.
  intros Hlimit Haddresses Haddress Hfile Hfits. unfold append_image.
  rewrite (io_bind_Ok _ _ _ _ _ (get_length_Some _ _ _ Hfile)).
  rewrite (getitem_Some _ _ _ Hlimit).
  unfold mbind at 1. unfold io_bind, lift.
  rewrite bool_decide_eq_false_2 by lia.
  rewrite (getitem_Some _ _ _ Haddresses).
  unfold mbind, io_bind, val_index. by rewrite Haddress.
Qed.

Lemma append_image_too_big image_file index output_file config (fs : files)
    image limit :
  config !! "max_image_size" = Some (VScalar (SInt limit)) ->
  fs !! image_file = Some image ->
  limit < Z.of_nat (length image) ->
  append_image run image_file index output_file config fs =
    (Raise (Exception (image_too_big image_file index
                         (Z.of_nat (length image)) limit)), fs).
Proof.
  intros Hlimit Hfile Hbig. unfold append_image.
  rewrite (io_bind_Ok _ _ _ _ _ (get_length_Some _ _ _ Hfile)).
  rewrite (getitem_Some _ _ _ Hlimit).
  unfold mbind, io_bind, lift.
  by rewrite bool_decide_eq_true_2 by lia.
Qed.

(** C5: a bootloader of exactly [bootloader_size] bytes is placed, one
    byte more raises the size error; an image of exactly
    [max_image_size] bytes is placed in its slot, one byte more raises the
    size error; a size error ends the run: the main block raises it and
    does nothing further to the files. *)
Theorem size_checks_at_the_boundary config (fs : files) :
  (forall bootloader_file output_file bootloader limit,
     config !! "bootloader_size" = Some (VScalar (SInt limit)) ->
     fs !! bootloader_file = Some bootloader ->
     (Z.of_nat (length bootloader) = limit ->
      create_output_binary run bootloader_file output_file config fs =
        (Ok tt, run (dd_command bootloader_file output_file "0") fs)) /\
     (Z.of_nat (length bootloader) = limit + 1 ->
      exists e,
        SizeExceededError e /\
        create_output_binary run bootloader_file output_file config fs =
          (Raise e, fs) /\
        forall images key_file global_metadata,
          extract_all GlobalImageMetadata.init images key_file fs =
            (Ok global_metadata, fs) ->
          main run images bootloader_file key_file output_file config fs =
            (Raise e, fs))) /\
  (forall image_file index output_file image limit,
     config !! "max_image_size" = Some (VScalar (SInt limit)) ->
     fs !! image_file = Some image ->
     (Z.of_nat (length image) = limit ->
      forall addresses address,
        config !! "image_begin_addresses" = Some (VList addresses) ->
        addresses !! index = Some address ->
        append_image run image_file index output_file config fs =
          (Ok tt, run (dd_command image_file output_file (py_format address)) fs)) /\
     (Z.of_nat (length image) = limit + 1 ->
      exists e,
        SizeExceededError e /\
        append_image run image_file index output_file config fs = (Raise e, fs) /\
        forall rest,
          append_images_loop run (image_file :: rest) index output_file config fs =
            (Raise e, fs))) /\
  (forall images bootloader_file key_file output_file global_metadata fs1 fs2 e,
     extract_all GlobalImageMetadata.init images key_file fs =
       (Ok global_metadata, fs) ->
     create_output_binary run bootloader_file output_file config fs = (Ok tt, fs1) ->
     append_images_to_binary run images output_file config fs1 = (Raise e, fs2) ->
     main run images bootloader_file key_file output_file config fs =
       (Raise e, fs2)).
Proof.
  split; [|split].
  - intros bootloader_file output_file bootloader limit Hlimit Hfile. split.
    + intros Hlen. apply (create_output_binary_fits _ _ _ _ bootloader limit);
        [done..|lia].
    + intros Hlen. eexists. split; [by eexists|].
      assert (create_output_binary run bootloader_file output_file config fs =
              (Raise (Exception (bootloader_too_big
                                   (Z.of_nat (length bootloader)) limit)), fs))
        as Hraise
        by (apply create_output_binary_too_big; [done..|lia]).
      split; [exact Hraise|].
      intros images key_file global_metadata Hextract. unfold main.
      rewrite (io_bind_Ok _ _ _ _ _ Hextract).
      by rewrite (io_bind_Raise _ _ _ _ _ Hraise).
  - intros image_file index output_file image limit Hlimit Hfile. split.
    + intros Hlen addresses address Haddresses Haddress.
      apply (append_image_fits _ _ _ _ _ image limit addresses); [done..|lia].
    + intros Hlen. eexists. split; [by eexists|].
      assert (append_image run image_file index output_file config fs =
              (Raise (Exception (image_too_big image_file index
                                   (Z.of_nat (length image)) limit)), fs))
        as Hraise
        by (apply append_image_too_big; [done..|lia]).
      split; [exact Hraise|].
      intros rest. cbn [append_images_loop].
      by rewrite (io_bind_Raise _ _ _ _ _ Hraise).
  - intros images bootloader_file key_file output_file global_metadata
      fs1 fs2 e Hextract Hcreate Happend. unfold main.
    rewrite (io_bind_Ok _ _ _ _ _ Hextract).
    rewrite (io_bind_Ok _ _ _ _ _ Hcreate).
    by rewrite (io_bind_Raise _ _ _ _ _ Happend).
Qed.

End Placement.

End ComposerProperties.

Lemma size_checks_at_the_boundary_witness :
  Composer.create_output_binary Dd.run "boot.bin" "out.bin" small_config small_files =
    (Ok tt, Dd.run (Composer.dd_command "boot.bin" "out.bin" "0") small_files) /\
  (exists e,
     SizeExceededError e /\
     Composer.create_output_binary Dd.run "big.bin" "out.bin" small_config small_files =
       (Raise e, small_files) /\
     Composer.main Dd.run ["a.bin"] "big.bin" "key" "out.bin" small_config small_files =
       (Raise e, small_files)) /\
  Composer.append_image Dd.run "b.bin" 1 "out.bin" small_config small_files =
    (Ok tt, Dd.run (Composer.dd_command "b.bin" "out.bin" "48") small_files) /\
  (exists e,
     SizeExceededError e /\
     Composer.append_image Dd.run "c.bin" 1 "out.bin" small_config small_files =
       (Raise e, small_files) /\
     Composer.append_images_loop Dd.run ["c.bin"; "a.bin"] 1 "out.bin" small_config
       small_files = (Raise e, small_files)) /\
  (exists e fs2,
     Composer.main Dd.run ["a.bin"; "c.bin"] "boot.bin" "key" "out.bin" small_config
       small_files = (Raise e, fs2)).
Proof.
  destruct (size_checks_at_the_boundary Dd.run small_config small_files)
    as (Hbootloader & Himage & Habort).
  split; [|split; [|split; [|split]]].
  - apply (Hbootloader "boot.bin" "out.bin" (bytes_of_string "0123456789abcdef") 16);
      reflexivity.
  - destruct (Hbootloader "big.bin" "out.bin" (bytes_of_string "0123456789abcdefg") 16)
      as [_ Hbig]; [reflexivity..|].
    destruct Hbig as (e & He & Hraise & Hmain); [reflexivity|].
    exists e. split; [done|]. split; [done|].
    eapply Hmain. vm_compute. reflexivity.
  - refine (proj1 (Himage "b.bin" 1%nat "out.bin"
                     (bytes_of_string "image-b, 32 bytes long, no more.") 32 _ _)
                  _ [SInt 16; SInt 48] (SInt 48) _ _); reflexivity.
  - destruct (Himage "c.bin" 1%nat "out.bin"
                (bytes_of_string "image-c, 33 bytes long, one more.") 32)
      as [_ Hbig]; [reflexivity..|].
    destruct Hbig as (e & He & Hraise & Hloop); [reflexivity|].
    exists e. split; [done|]. split; [done|]. apply Hloop.
  - eexists _, _.
    eapply (Habort ["a.bin"; "c.bin"] "boot.bin" "key" "out.bin");
      vm_compute; reflexivity.
Defined.

(** ** Reading the metadata back *)

Lemma kept_below_refl m content : kept_below m content content.
Proof. by intros k _ _. Qed.

Lemma kept_below_length m content content' k :
  kept_below m content content' ->
  (k <= m)%nat -> (k <= length content)%nat -> (k <= length content')%nat.
Proof.
  intros Hkept Hm Hlen. pose proof (Hkept k Hm Hlen) as Htake.
  apply (f_equal length) in Htake. rewrite !length_take in Htake. lia.
Qed.

Lemma kept_below_trans m m' c1 c2 c3 :
  kept_below m c1 c2 -> kept_below m' c2 c3 -> (m <= m')%nat ->
  kept_below m c1 c3.
Proof.
  intros H12 H23 Hm k Hk Hlen.
  rewrite <- (H12 k) by done. apply H23; [lia|].
  by apply (kept_below_length m c1).
Qed.

Lemma kept_below_le m m' c c' :
  kept_below m' c c' -> (m <= m')%nat -> kept_below m c c'.
Proof. intros H Hm k Hk Hlen. apply H; [lia|done]. Qed.

Lemma kept_below_write_at content offset data :
  kept_below offset content (write_at content offset data).
Proof. intros k Hk Hlen. by apply take_write_at. Qed.

Lemma holds_write_at content offset data :
  holds (write_at content offset data) offset data.
Proof.
  split; [apply read_at_write_at|].
  destruct data as [|b data]; [by left|right].
  rewrite length_write_at by done. lia.
Qed.

Lemma holds_kept content content' offset data m :
  holds content offset data ->
  kept_below m content content' ->
  (offset + length data <= m)%nat ->
  holds content' offset data.
Proof.
  intros [Hread Hin] Hkept Hm. destruct Hin as [-> | Hin].
  - split; [|by left]. unfold read_at. by rewrite take_0.
  - split.
    + rewrite <- Hread at 2.
      apply (read_at_agree _ _ _ _ (offset + length data)); [done|].
      by apply Hkept.
    + right. by apply (kept_below_length m content).
Qed.

Section RoundTrip.

Import Composer.

Variable config : gmap string value.
Variable l : record_layout.
Hypothesis Hlayout : has_layout config l.
Hypothesis Horder : fields_in_order l.

Lemma metadata_offset_layout first x index :
  config !! first = Some (VScalar (SInt x)) ->
  metadata_offset config first (Z.of_nat index) =
    Ok (VScalar (SInt (x + stride l * Z.of_nat index))).
Proof.
  intros Hfirst. destruct Hlayout as (_ & _ & _ & _ & Hsize & _).
  unfold metadata_offset.
  by rewrite (getitem_Some _ _ _ Hfirst), bind_Ok, (getitem_Some _ _ _ Hsize).
Qed.

Lemma seek_position first index :
  0 <= first + stride l * Z.of_nat index ->
  seek (VScalar (SInt (first + stride l * Z.of_nat index))) =
    Ok (position l first index).
Proof. intros H. unfold seek. by rewrite bool_decide_eq_false_2 by lia. Qed.

(** The effect of [write_crc], [write_length] and
    [write_completion_status] on a value that fits. *)
Lemma write_int_effect output_file first x v n index (fs : files) content :
  config !! first = Some (VScalar (SInt x)) ->
  0 <= x + stride l * Z.of_nat index ->
  0 <= v < 256 ^ Z.of_nat n ->
  fs !! output_file = Some content ->
  exists bytes,
    int_to_bytes v n (VScalar (SStr (order l))) = Ok bytes /\
    length bytes = n /\
    (offset ← lift (metadata_offset config first (Z.of_nat index));
     patch output_file offset
       (byteorder ← getitem config "byteorder"; int_to_bytes v n byteorder)) fs =
      (Ok tt, <[output_file := write_at content (position l x index) bytes]> fs).
Proof.
  intros Hfirst Hpos Hv Hfile.
  destruct Hlayout as (_ & _ & _ & _ & _ & Hbyteorder & Hendian).
  destruct (int_to_bytes_fits v n (order l) Hendian Hv)
    as (bytes & Hbytes & Hlen & _).
  exists bytes. split; [done|]. split; [done|].
  rewrite (metadata_offset_layout _ _ _ Hfirst).
  unfold mbind at 1. unfold io_bind, lift, patch.
  rewrite (io_bind_Ok _ _ _ _ _ (read_file_Some _ _ _ Hfile)).
  rewrite (seek_position _ _ Hpos).
  rewrite (getitem_Some _ _ _ Hbyteorder), bind_Ok, Hbytes.
  reflexivity.
Qed.

Lemma write_hmac_signature_effect output_file signature index (fs : files) content :
  0 <= hmac_offset l + stride l * Z.of_nat index ->
  fs !! output_file = Some content ->
  write_hmac_signature output_file (Some signature) (Z.of_nat index) config fs =
    (Ok tt,
     <[output_file :=
         write_at content (position l (hmac_offset l) index) signature]> fs).
Proof.
  intros Hpos Hfile. destruct Hlayout as (_ & _ & _ & Hhmac & _).
  unfold write_hmac_signature.
  rewrite (metadata_offset_layout _ _ _ Hhmac).
  unfold mbind at 1. unfold io_bind, lift, patch.
  rewrite (io_bind_Ok _ _ _ _ _ (read_file_Some _ _ _ Hfile)).
  by rewrite (seek_position _ _ Hpos).
Qed.

Lemma stride_nonneg image : fits_record l image -> 0 <= stride l.
Proof.
  intros (_ & _ & _ & signature & _ & Hroom).
  destruct Horder as (? & ? & ? & ?). lia.
Qed.

Lemma position_succ first index :
  0 <= first -> 0 <= stride l ->
  position l first (S index) = (position l first index + Z.to_nat (stride l))%nat.
Proof.
  intros Hfirst Hstride. unfold position.
  rewrite Nat2Z.inj_succ, Z.mul_succ_r.
  pose proof (Z.mul_nonneg_nonneg (stride l) (Z.of_nat index)
                Hstride ltac:(lia)).
  lia.
Qed.

Lemma fix_image_metadata_effect output_file image index (fs : files) content :
  fits_record l image ->
  fs !! output_file = Some content ->
  exists content',
    fix_image_metadata output_file image index config fs =
      (Ok tt, <[output_file := content']> fs) /\
    kept_below (position l (crc_offset l) index) content content' /\
    record_holds l content' index image.
Proof.
  intros Hfits Hfile. pose proof (stride_nonneg image Hfits) as Hstride.
  destruct Hfits as (Hcrc & Hlen & Hstatus & signature & Hsignature & Hroom).
  destruct Horder as (Hc & Hcl & Hls & Hsh).
  pose proof Hlayout as (Lcrc & Llen & Lstatus & Lhmac & _).
  pose proof (Z.mul_nonneg_nonneg (stride l) (Z.of_nat index)
                Hstride ltac:(lia)) as Hbase.
  (* the four writes, one after the other *)
  destruct (write_int_effect output_file "first_crc_offset" _
              (ImageMetadata.crc image) 4 index fs content Lcrc)
    as (crc_bytes & Ecrc & Ncrc & W1); [lia|lia|done|].
  change (write_crc output_file (ImageMetadata.crc image) (Z.of_nat index)
            config fs = (Ok tt, <[output_file :=
              write_at content (position l (crc_offset l) index) crc_bytes]> fs))
    in W1.
  set (c1 := write_at content (position l (crc_offset l) index) crc_bytes) in *.
  set (fs1 := <[output_file := c1]> fs) in *.
  destruct (write_int_effect output_file "first_length_offset" _
              (ImageMetadata.length image) 4 index fs1 c1 Llen)
    as (length_bytes & Elen & Nlen & W2);
    [lia|lia|by apply lookup_insert_eq|].
  change (write_length output_file (ImageMetadata.length image)
            (Z.of_nat index) config fs1 = (Ok tt, <[output_file :=
              write_at c1 (position l (length_offset l) index) length_bytes]> fs1))
    in W2.
  set (c2 := write_at c1 (position l (length_offset l) index) length_bytes) in *.
  set (fs2 := <[output_file := c2]> fs1) in *.
  destruct (write_int_effect output_file "first_completion_status_offset" _
              (ImageMetadata.completion_status image) 2 index fs2 c2 Lstatus)
    as (status_bytes & Estatus & Nstatus & W3);
    [lia|lia|by apply lookup_insert_eq|].
  change (write_completion_status output_file
            (ImageMetadata.completion_status image)
            (Z.of_nat index) config fs2 = (Ok tt, <[output_file :=
              write_at c2 (position l (status_offset l) index) status_bytes]> fs2))
    in W3.
  set (c3 := write_at c2 (position l (status_offset l) index) status_bytes) in *.
  set (fs3 := <[output_file := c3]> fs2) in *.
  assert (write_hmac_signature output_file (Some signature) (Z.of_nat index)
            config fs3 =
          (Ok tt, <[output_file :=
             write_at c3 (position l (hmac_offset l) index) signature]> fs3))
    as W4.
  { apply write_hmac_signature_effect; [lia|by apply lookup_insert_eq]. }
  set (c4 := write_at c3 (position l (hmac_offset l) index) signature) in *.
  exists c4. split; [|split].
  - unfold fix_image_metadata.
    rewrite (io_bind_Ok _ _ _ _ _ W1), (io_bind_Ok _ _ _ _ _ W2),
      (io_bind_Ok _ _ _ _ _ W3), Hsignature, W4.
    unfold fs3, fs2, fs1. by rewrite !insert_insert_eq.
  - (* nothing before the record is touched *)
    assert (position l (crc_offset l) index <= position l (length_offset l) index)%nat
      by (unfold position; lia).
    assert (position l (crc_offset l) index <= position l (status_offset l) index)%nat
      by (unfold position; lia).
    assert (position l (crc_offset l) index <= position l (hmac_offset l) index)%nat
      by (unfold position; lia).
    assert (kept_below (position l (crc_offset l) index) content c1) as K1
      by apply kept_below_write_at.
    assert (kept_below (position l (crc_offset l) index) c1 c2) as K2
      by (eapply kept_below_le; [apply kept_below_write_at|done]).
    assert (kept_below (position l (crc_offset l) index) c2 c3) as K3
      by (eapply kept_below_le; [apply kept_below_write_at|done]).
    assert (kept_below (position l (crc_offset l) index) c3 c4) as K4
      by (eapply kept_below_le; [apply kept_below_write_at|done]).
    pose (m := position l (crc_offset l) index).
    apply (kept_below_trans m m _ c1 _ K1); [|done].
    apply (kept_below_trans m m _ c2 _ K2); [|done].
    by apply (kept_below_trans m m _ c3 _ K3).
  - (* each field is still there after the writes that follow it *)
    assert (position l (crc_offset l) index + 4 <= position l (length_offset l) index)%nat
      by (unfold position; lia).
    assert (position l (length_offset l) index + 4 <= position l (status_offset l) index)%nat
      by (unfold position; lia).
    assert (position l (status_offset l) index + 2 <= position l (hmac_offset l) index)%nat
      by (unfold position; lia).
    pose proof (kept_below_write_at c1 (position l (length_offset l) index)
                  length_bytes) as K2.
    pose proof (kept_below_write_at c2 (position l (status_offset l) index)
                  status_bytes) as K3.
    pose proof (kept_below_write_at c3 (position l (hmac_offset l) index)
                  signature) as K4.
    fold c2 in K2. fold c3 in K3. fold c4 in K4.
    exists crc_bytes, length_bytes, status_bytes, signature.
    do 4 (split; [done|]). split; [|split; [|split]].
    + eapply holds_kept; [|exact K4|lia].
      eapply holds_kept; [|exact K3|lia].
      eapply holds_kept; [|exact K2|lia].
      apply holds_write_at.
    + eapply holds_kept; [|exact K4|lia].
      eapply holds_kept; [|exact K3|lia].
      apply holds_write_at.
    + eapply holds_kept; [|exact K4|lia].
      apply holds_write_at.
    + apply holds_write_at.
Qed.

(** A record stays when the file is only changed from the next record
    on. *)
Lemma record_holds_kept content content' index image :
  fits_record l image ->
  record_holds l content index image ->
  kept_below (position l (crc_offset l) (S index)) content content' ->
  record_holds l content' index image.
Proof.
  intros Hfits Hholds Hkept.
  pose proof (stride_nonneg image Hfits) as Hstride.
  destruct Hfits as (_ & _ & _ & signature' & Hsignature' & Hroom).
  destruct Horder as (Hc & Hcl & Hls & Hsh).
  destruct Hholds as (crc_bytes & length_bytes & status_bytes & signature &
    Ecrc & Elen & Estatus & Hsignature & Hcrc & Hlen & Hstatus & Hhmac).
  rewrite Hsignature in Hsignature'. injection Hsignature' as <-.
  pose proof (Z.mul_nonneg_nonneg (stride l) (Z.of_nat index)
                Hstride ltac:(lia)) as Hbase.
  pose proof (int_to_bytes_Ok _ _ _ _ Ecrc) as (_ & Ncrc & _).
  pose proof (int_to_bytes_Ok _ _ _ _ Elen) as (_ & Nlen & _).
  pose proof (int_to_bytes_Ok _ _ _ _ Estatus) as (_ & Nstatus & _).
  rewrite position_succ in Hkept by done.
  exists crc_bytes, length_bytes, status_bytes, signature.
  do 4 (split; [done|]).
  split; [|split; [|split]];
    (eapply holds_kept; [eassumption|exact Hkept|unfold position; lia]).
Qed.

Lemma fix_metadata_loop_effect output_file images index (fs : files) content :
  Forall (fits_record l) images ->
  fs !! output_file = Some content ->
  exists content',
    fix_metadata_loop output_file images index config fs =
      (Ok tt, <[output_file := content']> fs) /\
    kept_below (position l (crc_offset l) index) content content' /\
    forall j image,
      images !! j = Some image -> record_holds l content' (index + j) image.
Proof.
  intros Hfits. revert index fs content.
  induction Hfits as [|image rest Himage _ IH]; intros index fs content Hfile.
  - exists content. split; [|split].
    + simpl. unfold mret, io_ret. by rewrite insert_id.
    + apply kept_below_refl.
    + intros j image Hj. by rewrite lookup_nil in Hj.
  - destruct (fix_image_metadata_effect output_file image index fs content
                Himage Hfile) as (c1 & W1 & K1 & R1).
    destruct (IH (S index) (<[output_file := c1]> fs) c1)
      as (content' & W & K & R); [by apply lookup_insert_eq|].
    pose proof (stride_nonneg image Himage) as Hstride.
    assert (position l (crc_offset l) index <= position l (crc_offset l) (S index))%nat
      as Hnext
      by (destruct Horder as (? & _); rewrite position_succ by done; lia).
    exists content'. split; [|split].
    + cbn [fix_metadata_loop]. rewrite (io_bind_Ok _ _ _ _ _ W1), W.
      by rewrite insert_insert_eq.
    + by apply (kept_below_trans _ _ _ c1 _ K1 K).
    + intros [|j] image' Hj; simpl in Hj.
      * injection Hj as <-. rewrite Nat.add_0_r.
        by apply (record_holds_kept c1).
      * rewrite Nat.add_succ_r. by apply (R j).
Qed.



Lemma write_hmac_key_effect output_file key_file (fs : files) content key key_offset :
  config !! "hmac_key_offset" = Some (VScalar (SInt key_offset)) ->
  0 <= key_offset ->
  fs !! output_file = Some content ->
  fs !! key_file = Some key ->
  write_hmac_key output_file (Some key_file) config fs =
    (Ok tt, <[output_file := write_at content (Z.to_nat key_offset) key]> fs).
Proof.
  intros Hoffset Hpos Hfile Hkey. unfold write_hmac_key.
  rewrite (io_bind_Ok _ _ _ _ _ (read_file_Some _ _ _ Hfile)).
  rewrite (io_bind_Ok _ _ _ _ _ (read_file_Some _ _ _ Hkey)).
  rewrite (getitem_Some _ _ _ Hoffset).
  unfold mbind, io_bind, lift, seek.
  by rewrite bool_decide_eq_false_2 by lia.
Qed.


End RoundTrip.

(** The configurations of the calculator meet the conditions of the round
    trip when the pointer size is not negative and the signature size
    leaves room for the digest. *)
Lemma config_of_has_layout p :
  pd_byteorder p = "little" \/ pd_byteorder p = "big" ->
  has_layout (config_of p) (layout_of p).
Proof.
  intros Hendian.
  pose proof (config_of_entries p)
    as (_ & Hsize & _ & _ & Hcrc & Hlen & Hcs & Hhmac & _ & _ & Hbo).
  by repeat split.
Qed.

Lemma layout_of_in_order p :
  0 <= first_record_of p + 4 -> 0 <= pd_pointer_size p ->
  fields_in_order (layout_of p).
Proof. intros Hfirst Hpointer. unfold fields_in_order. simpl. lia. Qed.

Lemma extracted_fits_record p image_file image key :
  Z.of_nat (length image) < 2 ^ 32 ->
  28 <= pd_hmac_signature_size p ->
  fits_record (layout_of p) (extracted image_file image key).
Proof.
  intros Hlen Hsize. unfold fits_record, extracted, layout_of.
  cbn [ImageMetadata.crc ImageMetadata.length ImageMetadata.completion_status
       ImageMetadata.hmac_signature hmac_offset crc_offset stride].
  split; [apply Crc32cProperties.crc32c_range|].
  split; [lia|]. split; [lia|].
  eexists. split; [reflexivity|].
  rewrite HmacProperties.length_hmac_sha256. unfold size_of_metadata_of. lia.
Qed.



(** * Further properties *)

(** ** The layout calculator *)

Section LayoutFurther.

Import Layout.

Lemma walk_sizes_before prop before offset :
  int_widths before -> prop ∉ odict_keys before ->
  forall rest,
    walk_sizes prop (before ++ rest) (SInt offset) =
      walk_sizes prop rest (SInt (offset + widths_sum before)).
Proof.
  intros Hint. revert offset.
  induction Hint as [|[key width] before [n Hn] _ IH]; intros offset Hprop rest.
  - simpl. by rewrite Z.add_0_r.
  - simpl in *. subst width. apply not_elem_of_cons in Hprop as [Hne Hprop].
    rewrite bool_decide_eq_false_2 by done. simpl.
    rewrite IH by done. do 2 f_equal. lia.
Qed.

Lemma walk_sizes_found prop width rest offset :
  walk_sizes prop ((prop, width) :: rest) offset = Ok (Return offset).
Proof. simpl. by rewrite bool_decide_eq_true_2. Qed.

(** X1: [get_offset_of] returns the base address plus the widths of the
    entries before the first entry called [prop], global entries first;
    the width of that entry and the entries after it are not looked
    at. *)
Theorem get_offset_of_first_occurrence prop platform metadata_sizes
    global_metadata_sizes base before width after :
  platform !! "metadata_label_address" = Some (SInt base) ->
  global_metadata_sizes ++ metadata_sizes = before ++ (prop, width) :: after ->
  int_widths before ->
  prop ∉ odict_keys before ->
  get_offset_of prop platform metadata_sizes global_metadata_sizes =
    Ok (SInt (base + widths_sum before)).
Proof.
  intros Hbase Hsplit Hint Hprop. unfold get_offset_of.
  rewrite (getitem_Some _ _ _ Hbase), bind_Ok.
  destruct (decide (length before < length global_metadata_sizes)%nat) as [Hlt|Hge].
  - (* the entry is a global one *)
    assert (exists after', global_metadata_sizes = before ++ (prop, width) :: after')
      as [after' ->].
    { remember (length global_metadata_sizes) as n eqn:Hn.
      exists (take (n - S (length before)) after).
      apply (f_equal (take n)) in Hsplit.
      rewrite take_app_length' in Hsplit by done. rewrite Hsplit.
      rewrite take_app_ge by lia. f_equal.
      replace (n - length before)%nat with (S (n - S (length before))) by lia.
      reflexivity. }
    rewrite walk_sizes_before by done. by rewrite walk_sizes_found.
  - (* the entry is a per-image one *)
    assert (before = global_metadata_sizes ++
              drop (length global_metadata_sizes) before) as Hbefore.
    { remember (length global_metadata_sizes) as n eqn:Hn.
      apply (f_equal (take n)) in Hsplit.
      rewrite take_app_length', take_app_le in Hsplit by (done || lia).
      rewrite Hsplit at 1. by rewrite take_drop. }
    set (middle := drop (length global_metadata_sizes) before) in *.
    assert (metadata_sizes = middle ++ (prop, width) :: after) as ->.
    { rewrite Hbefore, <- app_assoc in Hsplit. by apply app_inv_head in Hsplit. }
    rewrite Hbefore in Hint, Hprop. unfold int_widths in Hint.
    apply Forall_app in Hint as [Hg Hm].
    unfold odict_keys in Hprop. rewrite fmap_app in Hprop.
    apply not_elem_of_app in Hprop as [Hpg Hpm].
    pose proof (walk_sizes_before prop global_metadata_sizes base Hg Hpg [])
      as Hwalk.
    rewrite app_nil_r in Hwalk. rewrite Hwalk. cbn [walk_sizes].
    rewrite bind_Ok, walk_sizes_before by done.
    rewrite walk_sizes_found, bind_Ok.
    do 2 f_equal. rewrite Hbefore. unfold widths_sum.
    rewrite foldr_app. fold (widths_sum middle).
    generalize (widths_sum middle). clear.
    induction global_metadata_sizes as [|[k [n|s]] l IH]; intros z; simpl; [lia|..].
    + rewrite <- Z.add_assoc. specialize (IH z). simpl in IH. lia.
    + apply IH.
Qed.

Lemma get_offset_of_first_occurrence_witness :
  get_offset_of "crc" (platform_dict example_platform)
    [("crc", SInt 4); ("length", SInt 4)]
    [("globalBootCounter", SInt 4); ("crc", SStr "shadows"); ("last", SStr "?")] =
    Ok (SInt (0x20000 + 4)).
Proof.
  apply (get_offset_of_first_occurrence "crc" (platform_dict example_platform)
           _ _ 0x20000 [("globalBootCounter", SInt 4)] (SStr "shadows")
           [("last", SStr "?"); ("crc", SInt 4); ("length", SInt 4)]).
  - reflexivity.
  - reflexivity.
  - repeat constructor. by eexists.
  - unfold odict_keys. simpl. intros Hin.
    apply elem_of_cons in Hin as [Hin|Hin]; [discriminate|].
    by apply elem_of_nil in Hin.
Defined.

(** X2: in the configuration of the calculator the three keys end where
    the first record starts, the fields of a record follow each other in
    the order of the template, and the signature ends one
    [size_of_metadata] after the start of the record: records of that
    stride tile the region without gaps. *)
Theorem records_are_contiguous platform p :
  describes platform p ->
  exists config key first crc len status hmac size,
    build_config platform = Ok config /\
    int_entry config "hmac_key_offset" key /\
    int_entry config "first_image_metadata_offset" first /\
    int_entry config "first_crc_offset" crc /\
    int_entry config "first_length_offset" len /\
    int_entry config "first_completion_status_offset" status /\
    int_entry config "first_hmac_offset" hmac /\
    int_entry config "size_of_metadata" size /\
    key + 3 * pd_hmac_key_size p = first /\
    crc = first + 4 /\
    len = crc + 4 + 4 + 4 + pd_pointer_size p /\
    status = len + 4 /\
    hmac = status + 2 + 2 /\
    hmac + pd_hmac_signature_size p = first + size.
Proof.
  intros H. pose proof (config_of_entries p)
    as (_ & Hsize & Hkey & Hfirst & Hcrc & Hlen & Hcs & Hhmac & _).
  eexists (config_of p), _, _, _, _, _, _, _.
  split; [by apply build_config_describes|].
  do 7 (split; [eassumption|]).
  unfold first_record_of, size_of_metadata_of. lia.
Qed.

Lemma records_are_contiguous_witness :
  exists config key first crc len status hmac size,
    build_config (platform_dict example_platform) = Ok config /\
    int_entry config "hmac_key_offset" key /\
    int_entry config "first_image_metadata_offset" first /\
    int_entry config "first_crc_offset" crc /\
    int_entry config "first_length_offset" len /\
    int_entry config "first_completion_status_offset" status /\
    int_entry config "first_hmac_offset" hmac /\
    int_entry config "size_of_metadata" size /\
    key + 3 * 32 = first /\
    crc = first + 4 /\
    len = crc + 4 + 4 + 4 + 4 /\
    status = len + 4 /\
    hmac = status + 2 + 2 /\
    hmac + 32 = first + size.
Proof.
  apply (records_are_contiguous (platform_dict example_platform) example_platform).
  apply describes_platform_dict.
Defined.

(** The addresses when the fields of the image storage are integers. *)
Lemma generate_image_begin_addresses_ints platform config n b m :
  getitem platform "number_of_images" = Ok (SInt n) ->
  getitem platform "bootloader_size" = Ok (SInt b) ->
  getitem platform "max_image_size" = Ok (SInt m) ->
  generate_image_begin_addresses platform config =
    Ok (<["image_begin_addresses" :=
            VList (map (fun i => SInt (b + i * m)) (seqZ 0 n))]> config).
Proof.
  intros Hn Hb Hm. unfold generate_image_begin_addresses.
  rewrite Hn. simpl. by rewrite (image_begin_addresses_loop_ints _ _ _ _ _ Hb Hm).
Qed.

(** X3: a text where the calculator adds a width to an integer, or counts
    the images, makes it raise [TypeError], all fields being present. *)
Theorem build_config_text_width p key text :
  key ∈ summed_fields ->
  build_config (<[key := SStr text]> (platform_dict p)) = Raise TypeError.
Proof.
  intros Hkey. unfold summed_fields in Hkey.
  repeat (apply elem_of_cons in Hkey as [->|Hkey]);
    [..|by apply elem_of_nil in Hkey];
    unfold build_config;
    match goal with
    | |- context [getitem ?platform "name"] =>
        replace (getitem platform "name") with (Ok (SStr (pd_name p)))
          by reflexivity;
        rewrite bind_Ok;
        first
          [ (* the count of images is the text *)
            reflexivity
          | rewrite (generate_image_begin_addresses_ints platform _
                       (pd_number_of_images p) (pd_bootloader_size p)
                       (pd_max_image_size p)) by reflexivity;
            reflexivity ]
    end.
Qed.

Lemma build_config_text_width_witness :
  build_config (<["pointer_size" := SStr "four"]> (platform_dict example_platform)) =
    Raise TypeError.
Proof.
  apply (build_config_text_width example_platform "pointer_size" "four").
  unfold summed_fields. repeat constructor.
Defined.

Lemma image_begin_addresses_loop_texts platform b m indices addresses :
  getitem platform "bootloader_size" = Ok (SStr b) ->
  getitem platform "max_image_size" = Ok (SStr m) ->
  image_begin_addresses_loop platform indices addresses =
    Ok (addresses ++
        map (fun i => SStr (String.append b (str_repeat m i))) indices).
Proof.
  intros Hb Hm. revert addresses.
  induction indices as [|i rest IH]; intros addresses; simpl.
  - by rewrite app_nil_r.
  - rewrite Hb, Hm. simpl. rewrite IH. by rewrite <- app_assoc.
Qed.

(** X4: the calculator does not ask the two sizes of the image storage to
    be integers. When both are texts it returns a configuration: address
    [i] is the text of [bootloader_size] followed by [i] copies of the
    text of [max_image_size], and the two texts are copied through. *)
Theorem build_config_text_sizes p b m :
  exists config,
    build_config (with_text_sizes p b m) = Ok config /\
    config !! "image_begin_addresses" =
      Some (VList (map (fun i => SStr (String.append b (str_repeat m i)))
                       (seqZ 0 (pd_number_of_images p)))) /\
    config !! "bootloader_size" = Some (VScalar (SStr b)) /\
    config !! "max_image_size" = Some (VScalar (SStr m)).
Proof.
  unfold build_config, with_text_sizes.
  match goal with
  | |- context [getitem ?platform "name"] =>
      replace (getitem platform "name") with (Ok (SStr (pd_name p)))
        by reflexivity;
      rewrite bind_Ok;
      unfold generate_image_begin_addresses;
      replace (getitem platform "number_of_images")
        with (Ok (SInt (pd_number_of_images p))) by reflexivity;
      rewrite bind_Ok; unfold py_range; rewrite bind_Ok;
      rewrite (image_begin_addresses_loop_texts platform b m) by reflexivity
  end.
  eexists. split; [reflexivity|]. repeat split; by simplify_map_eq.
Qed.

End LayoutFurther.

(** ** Persisting configurations *)

Section GenerateFurther.

Import Layout.

Variable yaml_load : list byte -> result (gmap string scalar).
Variable yaml_dump : gmap string value -> list byte.
Variable repr_list : list scalar -> string.

Lemma generate_config_cases platform_filename (fs : files) :
  let path := String.append PLATFORM_DESCRIPTION_PATH
                (String.append "/" platform_filename) in
  (exists e,
     generate_config yaml_load yaml_dump repr_list platform_filename fs =
       (Raise e, fs) /\
     (fs !! path = None -> e = FileNotFoundError path)) \/
  (exists name config,
     is_Some (fs !! path) /\
     generate_config yaml_load yaml_dump repr_list platform_filename fs =
       (Ok tt,
        <[String.append "config/" (String.append name ".yml") :=
            bytes_of_string warning ++ yaml_dump config]> fs)).
Proof.
  intros path. unfold generate_config. fold path.
  unfold mbind, io_bind, read_file, lift, save_config, store.
  destruct (fs !! path) as [content|] eqn:Hfile.
  - destruct (yaml_load content) as [platform|e].
    + destruct (build_config platform) as [config|e].
      * destruct (getitem config "name") as [name|e].
        -- right. by eexists _, _.
        -- left. exists e. by split.
      * left. exists e. by split.
    + left. exists e. by split.
  - left. eexists. by split.
Qed.

(** X5: [generate_config] writes one file or none. When it succeeds the
    file is under [config/] and starts with the warning line; when it
    raises, be it for a missing platform file, an unreadable document or a
    failing calculation, no file is created or changed. *)
Theorem generate_config_writes_one_file platform_filename (fs : files) :
  let generate := generate_config yaml_load yaml_dump repr_list platform_filename in
  let path := String.append PLATFORM_DESCRIPTION_PATH
                (String.append "/" platform_filename) in
  (fs !! path = None -> generate fs = (Raise (FileNotFoundError path), fs)) /\
  (forall e fs', generate fs = (Raise e, fs') -> fs' = fs) /\
  (forall fs', generate fs = (Ok tt, fs') ->
     exists written dump,
       in_config_directory written /\
       fs' = <[written := bytes_of_string warning ++ dump]> fs).
Proof.
  intros generate path. subst generate.
  destruct (generate_config_cases platform_filename fs)
    as [(e & -> & Hmissing) | (name & config & Hfile & ->)].
  - split; [|split].
    + intros Hnone. by rewrite (Hmissing Hnone).
    + by intros e' fs' [= _ <-].
    + discriminate.
  - split; [|split].
    + intros Hnone. destruct Hfile as [document Hfile].
      unfold path in Hnone. congruence.
    + discriminate.
    + intros fs' [= <-]. eexists _, _. split; [by eexists|reflexivity].
Qed.

Lemma generate_config_keeps platform_filename (fs : files) path :
  ~ in_config_directory path ->
  (generate_config yaml_load yaml_dump repr_list platform_filename fs).2 !! path =
    fs !! path.
Proof.
  intros Hpath.
  destruct (generate_config_cases platform_filename fs)
    as [(e & -> & _) | (name & config & _ & ->)]; [done|]. simpl.
  apply lookup_insert_ne. intros <-. apply Hpath. by eexists.
Qed.

Lemma generate_all_keeps platform_files (fs : files) path :
  ~ in_config_directory path ->
  (generate_all yaml_load yaml_dump repr_list platform_files fs).2 !! path =
    fs !! path.
Proof.
  intros Hpath. revert fs.
  induction platform_files as [|f rest IH]; intros fs; [done|].
  cbn [generate_all]. unfold mbind, io_bind.
  pose proof (generate_config_keeps f fs path Hpath) as Hkeep.
  destruct (generate_config yaml_load yaml_dump repr_list f fs) as [[[]|e] fs1];
    simpl in Hkeep.
  - by rewrite IH.
  - done.
Qed.

(** X6: the main block changes no file outside [config/]: whatever the
    listing holds and however the run ends, the platform descriptions are
    as they were. *)
Theorem main_keeps_other_files listing (fs : files) path :
  ~ in_config_directory path ->
  (main yaml_load yaml_dump repr_list listing fs).2 !! path = fs !! path.
Proof. intros Hpath. by apply generate_all_keeps. Qed.

Lemma generate_config_ignores platform_filename (fs : files) other content :
  other <> String.append PLATFORM_DESCRIPTION_PATH
             (String.append "/" platform_filename) ->
  ~ in_config_directory other ->
  generate_config yaml_load yaml_dump repr_list platform_filename
      (<[other := content]> fs) =
    ((generate_config yaml_load yaml_dump repr_list platform_filename fs).1,
     <[other := content]>
       (generate_config yaml_load yaml_dump repr_list platform_filename fs).2).
Proof.
  intros Hother Hconfig. unfold generate_config.
  unfold mbind, io_bind, read_file, lift, save_config, store.
  rewrite lookup_insert_ne by done.
  destruct (fs !! _) as [document|]; [|done].
  destruct (yaml_load document) as [platform|e]; [|done].
  destruct (build_config platform) as [config|e]; [|done].
  destruct (getitem config "name") as [name|e]; [|done].
  unfold mbind, io_bind, lift. cbn [fst snd].
  f_equal. apply insert_insert_ne. intros <-. apply Hconfig. by eexists.
Qed.

Lemma generate_all_ignores platform_files (fs : files) other content :
  Forall (fun f => other <> String.append PLATFORM_DESCRIPTION_PATH
                                          (String.append "/" f)) platform_files ->
  ~ in_config_directory other ->
  generate_all yaml_load yaml_dump repr_list platform_files
      (<[other := content]> fs) =
    ((generate_all yaml_load yaml_dump repr_list platform_files fs).1,
     <[other := content]>
       (generate_all yaml_load yaml_dump repr_list platform_files fs).2).
Proof.
  intros Hfiles Hconfig. revert fs.
  induction Hfiles as [|f rest Hf _ IH]; intros fs; [done|].
  cbn [generate_all]. unfold mbind, io_bind.
  rewrite (generate_config_ignores f fs other content Hf Hconfig).
  destruct (generate_config yaml_load yaml_dump repr_list f fs) as [[[]|e] fs1];
    simpl; [apply IH|done].
Qed.

(** X7: the main block never reads [template.yml]: with any content in
    that file the run ends the same way and writes the same files. *)
Theorem main_ignores_template listing (fs : files) content :
  let template := "platform_description/template.yml" in
  main yaml_load yaml_dump repr_list listing (<[template := content]> fs) =
    ((main yaml_load yaml_dump repr_list listing fs).1,
     <[template := content]> (main yaml_load yaml_dump repr_list listing fs).2).
Proof.
  intros template. unfold main. apply generate_all_ignores.
  - apply Forall_forall. intros f Hf.
    apply list_elem_of_filter in Hf as [Hf _].
    intros [= Heq]. by apply Hf.
  - intros [name [=]].
Qed.

End GenerateFurther.

Lemma generate_config_writes_one_file_witness :
  let generate :=
    Layout.generate_config example_yaml_load example_yaml_dump example_repr_list in
  generate "missing.yml" board_files =
    (Raise (FileNotFoundError "platform_description/missing.yml"), board_files) /\
  (forall e fs', generate "missing.yml" board_files = (Raise e, fs') ->
     fs' = board_files) /\
  exists written dump,
    in_config_directory written /\
    (generate "board.yml" board_files).2 =
      <[written := bytes_of_string Layout.warning ++ dump]> board_files.
Proof.
  intros generate.
  destruct (generate_config_writes_one_file example_yaml_load example_yaml_dump
              example_repr_list "missing.yml" board_files)
    as (Hmissing & Hraise & _).
  destruct (generate_config_writes_one_file example_yaml_load example_yaml_dump
              example_repr_list "board.yml" board_files)
    as (_ & _ & Hwritten).
  split; [by apply Hmissing|]. split; [exact Hraise|].
  apply Hwritten. vm_compute. reflexivity.
Defined.

Lemma main_keeps_other_files_witness :
  (Layout.main example_yaml_load example_yaml_dump example_repr_list
     ["template.yml"; "board.yml"; "missing.yml"] board_files).2
    !! "platform_description/board.yml" =
  board_files !! "platform_description/board.yml".
Proof.
  apply (main_keeps_other_files example_yaml_load example_yaml_dump
           example_repr_list).
  intros [name Hname]. discriminate Hname.
Defined.

(** ** Extraction *)

Section ExtractionFurther.

Import Composer.

Lemma extract_image_metadata_extracted global_metadata image_file key_file
    (fs : files) image key :
  fs !! image_file = Some image ->
  fs !! key_file = Some key ->
  extract_image_metadata global_metadata image_file key_file fs =
    (Ok {| GlobalImageMetadata.hmac_key_file := Some key_file;
           GlobalImageMetadata.images :=
             GlobalImageMetadata.images global_metadata ++
             [extracted image_file image key] |}, fs).
Proof.
  intros Himage Hkey.
  unfold extract_image_metadata, calculate_crc32c, calculate_hmac_signature.
  rewrite (io_bind_Ok _ _ fs (Crc32c.crc32c image) fs)
    by by rewrite (io_bind_Ok _ _ _ _ _ (read_file_Some _ _ _ Himage)).
  rewrite (io_bind_Ok _ _ _ _ _ (get_length_Some _ _ _ Himage)).
  rewrite (io_bind_Ok _ _ fs (Hmac.hmac_digest key image hashlib_sha256) fs).
  - reflexivity.
  - rewrite (io_bind_Ok _ _ _ _ _ (read_file_Some _ _ _ Hkey)).
    by rewrite (io_bind_Ok _ _ _ _ _ (read_file_Some _ _ _ Himage)).
Qed.

Lemma extract_image_metadata_reads_only global_metadata image_file key_file
    (fs : files) r fs' :
  extract_image_metadata global_metadata image_file key_file fs = (r, fs') ->
  fs' = fs.
Proof.
  unfold extract_image_metadata, calculate_crc32c, calculate_hmac_signature,
    get_length, mbind, io_bind, read_file, mret, io_ret.
  intros H. apply (f_equal snd) in H. cbn [snd] in H. rewrite <- H. clear H.
  destruct (fs !! image_file) as [image|] eqn:Himage; cbn beta iota; [|done].
  rewrite ?Himage. cbn beta iota. rewrite ?Himage. cbn beta iota.
  destruct (fs !! key_file) as [key|] eqn:Hkey; cbn beta iota; [|done].
  rewrite ?Himage. by cbn beta iota.
Qed.

(** X8: the records come in the order of the image paths: record [i] is
    made of image [i], its checksum, size and signature under the one key
    file; records collected before stay in front; the key file is noted
    when there is an image at all; no file is changed. *)
Theorem extract_all_positional global_metadata images key_file (fs : files)
    key contents :
  fs !! key_file = Some key ->
  Forall2 (fun image_file image => fs !! image_file = Some image)
    images contents ->
  extract_all global_metadata images key_file fs =
    (Ok {| GlobalImageMetadata.hmac_key_file :=
             match images with
             | [] => GlobalImageMetadata.hmac_key_file global_metadata
             | _ :: _ => Some key_file
             end;
           GlobalImageMetadata.images :=
             GlobalImageMetadata.images global_metadata ++
             zip_with (fun image_file image => extracted image_file image key)
               images contents |}, fs).
Proof.
  intros Hkey Himages. revert global_metadata.
  induction Himages as [|image_file image images contents Himage Hrest IH];
    intros global_metadata.
  - simpl. unfold mret, io_ret. rewrite app_nil_r. by destruct global_metadata.
  - cbn [extract_all zip_with].
    rewrite (io_bind_Ok _ _ _ _ _
               (extract_image_metadata_extracted global_metadata image_file
                  key_file fs image key Himage Hkey)).
    rewrite IH. cbn [GlobalImageMetadata.images GlobalImageMetadata.hmac_key_file].
    rewrite <- app_assoc. by destruct images.
Qed.

Lemma extract_all_positional_witness :
  extract_all GlobalImageMetadata.init ["a.bin"; "b.bin"] "key" small_files =
    (Ok small_metadata, small_files).
Proof.
  apply (extract_all_positional GlobalImageMetadata.init ["a.bin"; "b.bin"] "key"
           small_files (bytes_of_string "secret")
           [bytes_of_string "image-a";
            bytes_of_string "image-b, 32 bytes long, no more."]).
  - reflexivity.
  - repeat constructor.
Defined.

(** X9: extraction only reads. However it ends, the files are as they
    were; it raises [FileNotFoundError] with the path of the first image
    that is missing when the images before it and the key file are
    there. *)
Theorem extract_all_reads_only global_metadata images key_file (fs : files) :
  (forall r fs', extract_all global_metadata images key_file fs = (r, fs') ->
     fs' = fs) /\
  (forall before missing after,
     images = before ++ missing :: after ->
     Forall (fun image_file => is_Some (fs !! image_file)) before ->
     is_Some (fs !! key_file) ->
     fs !! missing = None ->
     extract_all global_metadata images key_file fs =
       (Raise (FileNotFoundError missing), fs)).
Proof.
  split.
  - revert global_metadata.
    induction images as [|image_file images IH]; intros global_metadata r fs'.
    + by intros [= _ <-].
    + cbn [extract_all]. unfold mbind, io_bind.
      destruct (extract_image_metadata global_metadata image_file key_file fs)
        as [[global_metadata'|e] fs1] eqn:Hone;
        apply extract_image_metadata_reads_only in Hone as ->.
      * apply IH.
      * by intros [= _ <-].
  - intros before missing after -> Hbefore [key Hkey] Hmissing.
    revert global_metadata.
    induction Hbefore as [|image_file before [image Himage] _ IH];
      intros global_metadata.
    + cbn [app extract_all].
      unfold extract_image_metadata, calculate_crc32c, mbind, io_bind, read_file.
      by rewrite Hmissing.
    + cbn [app extract_all].
      rewrite (io_bind_Ok _ _ _ _ _
                 (extract_image_metadata_extracted global_metadata image_file
                    key_file fs image key Himage Hkey)).
      apply IH.
Qed.

Lemma extract_all_reads_only_witness :
  (forall r fs',
     extract_all GlobalImageMetadata.init ["a.bin"; "lost.bin"; "b.bin"] "key"
       small_files = (r, fs') -> fs' = small_files) /\
  extract_all GlobalImageMetadata.init ["a.bin"; "lost.bin"; "b.bin"] "key"
    small_files = (Raise (FileNotFoundError "lost.bin"), small_files).
Proof.
  destruct (extract_all_reads_only GlobalImageMetadata.init
              ["a.bin"; "lost.bin"; "b.bin"] "key" small_files)
    as [Hreads Hmissing].
  split; [exact Hreads|].
  apply (Hmissing ["a.bin"] "lost.bin" ["b.bin"]).
  - reflexivity.
  - repeat constructor. by eexists.
  - by eexists.
  - reflexivity.
Defined.

End ExtractionFurther.

(** ** Patching the metadata *)

Section WriteFurther.

Import Composer.

Lemma offset_patch_Raise output_file (offset : result value) data
    (fs fs' : files) e :
  (offset ← lift offset; patch output_file offset data) fs = (Raise e, fs') ->
  fs' = fs.
Proof.
  unfold mbind at 1. unfold io_bind, lift.
  destruct offset as [offset|e']; [|by intros [= _ <-]].
  apply patch_Raise.
Qed.

Lemma write_hmac_key_Raise output_file key_file config (fs fs' : files) e :
  write_hmac_key output_file key_file config fs = (Raise e, fs') -> fs' = fs.
Proof.
  unfold write_hmac_key, mbind, io_bind, read_file, lift, raise, store.
  destruct (fs !! output_file) as [content|];
    cbn beta iota; [|by intros [= _ <-]].
  destruct key_file as [key_file|]; cbn beta iota; [|by intros [= _ <-]].
  destruct (fs !! key_file) as [key|]; cbn beta iota; [|by intros [= _ <-]].
  destruct (getitem config "hmac_key_offset") as [offset|];
    cbn beta iota; [|by intros [= _ <-]].
  destruct (seek offset); cbn beta iota; [discriminate|by intros [= _ <-]].
Qed.

(** X10: a write of the composer that raises has written nothing: the
    files are as they were before the call, for the key and for each of
    the four fields. *)
Theorem failed_write_changes_nothing output_file config (fs : files) :
  (forall key_file e fs',
     write_hmac_key output_file key_file config fs = (Raise e, fs') -> fs' = fs) /\
  (forall crc index e fs',
     write_crc output_file crc index config fs = (Raise e, fs') -> fs' = fs) /\
  (forall length index e fs',
     write_length output_file length index config fs = (Raise e, fs') ->
     fs' = fs) /\
  (forall completion_status index e fs',
     write_completion_status output_file completion_status index config fs =
       (Raise e, fs') -> fs' = fs) /\
  (forall hmac_signature index e fs',
     write_hmac_signature output_file hmac_signature index config fs =
       (Raise e, fs') -> fs' = fs).
Proof.
  split; [|split; [|split; [|split]]].
  - intros key_file e fs'. apply write_hmac_key_Raise.
  - intros crc index e fs'. apply offset_patch_Raise.
  - intros length index e fs'. apply offset_patch_Raise.
  - intros completion_status index e fs'. apply offset_patch_Raise.
  - intros hmac_signature index e fs'. apply offset_patch_Raise.
Qed.

Lemma failed_write_changes_nothing_witness :
  forall fs',
    write_crc "out.bin" 0 (-3) small_config small_files = (Raise OSError, fs') ->
    fs' = small_files.
Proof.
  intros fs'.
  apply (failed_write_changes_nothing "out.bin" small_config small_files).
Defined.

(** X11: the calculator copies any [byteorder] through, and a byte order
    that is neither [little] nor [big] stops the composer at the first
    checksum: [write_crc] raises [ValueError], whatever the checksum, and
    writes nothing. *)
Theorem unknown_byteorder_stops_write_crc platform p output_file crc index
    (fs : files) :
  describes platform p ->
  pd_byteorder p <> "little" ->
  pd_byteorder p <> "big" ->
  0 <= first_record_of p + 4 + size_of_metadata_of p * Z.of_nat index ->
  is_Some (fs !! output_file) ->
  exists config,
    Layout.build_config platform = Ok config /\
    write_crc output_file crc (Z.of_nat index) config fs = (Raise ValueError, fs).
Proof.
  intros H Hlittle Hbig Hposition [content Hfile].
  exists (config_of p). split; [by apply build_config_describes|].
  pose proof (config_of_entries p) as (_ & Hsize & _ & _ & Hcrc & _ & _ & _ & _ & _ & Hbo).
  assert (metadata_offset (config_of p) "first_crc_offset" (Z.of_nat index) =
          Ok (VScalar (SInt (first_record_of p + 0 + 4 +
                             size_of_metadata_of p * Z.of_nat index))))
    as Hoffset.
  { unfold metadata_offset.
    by rewrite (getitem_Some _ _ _ Hcrc), bind_Ok, (getitem_Some _ _ _ Hsize). }
  unfold write_crc. rewrite Hoffset.
  unfold mbind at 1. unfold io_bind, lift, patch.
  rewrite (io_bind_Ok _ _ _ _ _ (read_file_Some _ _ _ Hfile)).
  unfold seek. rewrite bool_decide_eq_false_2 by lia.
  rewrite (getitem_Some _ _ _ Hbo), bind_Ok. unfold int_to_bytes.
  by rewrite !bool_decide_eq_false_2 by done.
Qed.

Lemma unknown_byteorder_stops_write_crc_witness :
  exists config,
    Layout.build_config (platform_dict middle_platform) = Ok config /\
    write_crc "out.bin" (2 ^ 40) (Z.of_nat 0) config small_files =
      (Raise ValueError, small_files).
Proof.
  apply (unknown_byteorder_stops_write_crc (platform_dict middle_platform)
           middle_platform "out.bin" (2 ^ 40) 0 small_files).
  - apply describes_platform_dict.
  - discriminate.
  - discriminate.
  - by vm_compute.
  - by eexists.
Defined.

Lemma kept_below_lookup m content content' k :
  kept_below m content content' ->
  (k < m)%nat -> (k < length content)%nat ->
  content' !! k = content !! k.
Proof.
  intros Hkept Hm Hlen.
  rewrite <- (lookup_take_lt content' (S k) k), <- (lookup_take_lt content (S k) k)
    by lia.
  f_equal. apply Hkept; lia.
Qed.

Section Layout.

Variable config : gmap string value.
Variable l : record_layout.
Hypothesis Hlayout : has_layout config l.
Hypothesis Horder : fields_in_order l.

(** What [fix_metadata] leaves of the file after the key was written. *)
Lemma fix_metadata_effect output_file global_metadata (fs : files)
    content key_file key key_offset :
  config !! "hmac_key_offset" = Some (VScalar (SInt key_offset)) ->
  0 <= key_offset ->
  GlobalImageMetadata.hmac_key_file global_metadata = Some key_file ->
  fs !! key_file = Some key ->
  fs !! output_file = Some content ->
  Forall (fits_record l) (GlobalImageMetadata.images global_metadata) ->
  exists content',
    fix_metadata output_file global_metadata config fs =
      (Ok tt, <[output_file := content']> fs) /\
    kept_below (position l (crc_offset l) 0)
      (write_at content (Z.to_nat key_offset) key) content'.
Proof.
  intros Hoffset Hpos Hkeyfile Hkey Hfile Hfits.
  pose proof (write_hmac_key_effect config output_file key_file fs content key
                key_offset Hoffset Hpos Hfile Hkey) as Wkey.
  set (c0 := write_at content (Z.to_nat key_offset) key) in *.
  destruct (fix_metadata_loop_effect config l Hlayout Horder output_file
              (GlobalImageMetadata.images global_metadata) 0
              (<[output_file := c0]> fs) c0 Hfits)
    as (content' & W & K & _); [by apply lookup_insert_eq|].
  exists content'. split; [|done].
  unfold fix_metadata. rewrite Hkeyfile, (io_bind_Ok _ _ _ _ _ Wkey), W.
  by rewrite insert_insert_eq.
Qed.

Lemma position_0 first : position l first 0 = Z.to_nat first.
Proof. unfold position. f_equal. lia. Qed.

(** X12: patching the metadata leaves the bytes below the metadata alone:
    every byte of the output before both the key and the first checksum
    is what it was, so a bootloader and images placed below the metadata
    survive. *)
Theorem fix_metadata_keeps_lower_bytes output_file global_metadata (fs : files)
    content key_file key key_offset :
  config !! "hmac_key_offset" = Some (VScalar (SInt key_offset)) ->
  0 <= key_offset ->
  GlobalImageMetadata.hmac_key_file global_metadata = Some key_file ->
  fs !! key_file = Some key ->
  fs !! output_file = Some content ->
  Forall (fits_record l) (GlobalImageMetadata.images global_metadata) ->
  exists content',
    fix_metadata output_file global_metadata config fs =
      (Ok tt, <[output_file := content']> fs) /\
    forall k : nat,
      Z.of_nat k < key_offset -> Z.of_nat k < crc_offset l ->
      (k < length content)%nat ->
      content' !! k = content !! k.
Proof.
  intros Hoffset Hpos Hkeyfile Hkey Hfile Hfits.
  destruct (fix_metadata_effect output_file global_metadata fs content key_file
              key key_offset Hoffset Hpos Hkeyfile Hkey Hfile Hfits)
    as (content' & W & K).
  exists content'. split; [done|]. intros k Hk Hcrc Hlen.
  rewrite position_0 in K.
  rewrite (kept_below_lookup _ _ _ k K) by
    (try lia; pose proof (length_write_at_ge content (Z.to_nat key_offset) key); lia).
  apply (kept_below_lookup (Z.to_nat key_offset)); [|lia|done].
  apply kept_below_write_at.
Qed.

(** X13: the key reads back from [hmac_key_offset] after the patching when
    it ends before the first checksum starts. *)
Theorem fix_metadata_key_round_trip output_file global_metadata (fs : files)
    content key_file key key_offset :
  config !! "hmac_key_offset" = Some (VScalar (SInt key_offset)) ->
  0 <= key_offset ->
  GlobalImageMetadata.hmac_key_file global_metadata = Some key_file ->
  fs !! key_file = Some key ->
  fs !! output_file = Some content ->
  Forall (fits_record l) (GlobalImageMetadata.images global_metadata) ->
  key_offset + Z.of_nat (length key) <= crc_offset l ->
  exists content',
    fix_metadata output_file global_metadata config fs =
      (Ok tt, <[output_file := content']> fs) /\
    read_at content' (Z.to_nat key_offset) (length key) = key.
Proof.
  intros Hoffset Hpos Hkeyfile Hkey Hfile Hfits Hroom.
  destruct (fix_metadata_effect output_file global_metadata fs content key_file
              key key_offset Hoffset Hpos Hkeyfile Hkey Hfile Hfits)
    as (content' & W & K).
  exists content'. split; [done|]. rewrite position_0 in K.
  eapply holds_kept; [apply holds_write_at|exact K|lia].
Qed.

Lemma int_to_bytes_overflow v n :
  ~ (0 <= v < 256 ^ Z.of_nat n) ->
  int_to_bytes v n (VScalar (SStr (order l))) = Raise OverflowError.
Proof.
  intros Hv. destruct Hlayout as (_ & _ & _ & _ & _ & _ & Hendian).
  unfold int_to_bytes.
  destruct Hendian as [-> | ->]; simpl; repeat case_bool_decide; try done; lia.
Qed.

(** X14: the fields of a record are written one by one with nothing to
    undo them. When the length does not fit four bytes, [write_length]
    raises [OverflowError] after the checksum of the record is in the
    file: the record is left with its checksum only. *)
Theorem fix_image_metadata_partial output_file image index (fs : files) content :
  0 <= stride l ->
  0 <= ImageMetadata.crc image < 2 ^ 32 ->
  ~ (0 <= ImageMetadata.length image < 2 ^ 32) ->
  fs !! output_file = Some content ->
  exists crc_bytes,
    int_to_bytes (ImageMetadata.crc image) 4 (VScalar (SStr (order l))) =
      Ok crc_bytes /\
    fix_image_metadata output_file image index config fs =
      (Raise OverflowError,
       <[output_file :=
           write_at content (position l (crc_offset l) index) crc_bytes]> fs).
Proof.
  intros Hstride Hcrc Hlength Hfile.
  destruct Horder as (Hc & Hcl & Hls & Hsh).
  pose proof Hlayout as (Lcrc & Llen & _ & _ & Lsize & Lorder & _).
  pose proof (Z.mul_nonneg_nonneg (stride l) (Z.of_nat index)
                Hstride ltac:(lia)) as Hbase.
  destruct (write_int_effect config l Hlayout output_file "first_crc_offset" _
              (ImageMetadata.crc image) 4 index fs content Lcrc)
    as (crc_bytes & Ecrc & _ & W1); [lia|lia|done|].
  change (write_crc output_file (ImageMetadata.crc image) (Z.of_nat index)
            config fs = (Ok tt, <[output_file :=
              write_at content (position l (crc_offset l) index) crc_bytes]> fs))
    in W1.
  exists crc_bytes. split; [done|].
  unfold fix_image_metadata. rewrite (io_bind_Ok _ _ _ _ _ W1).
  apply io_bind_Raise. unfold write_length.
  rewrite (metadata_offset_layout config l Hlayout _ _ _ Llen).
  unfold mbind at 1. unfold io_bind, lift, patch.
  rewrite (io_bind_Ok _ _ _ _ _
             (read_file_Some _ _ _ (lookup_insert_eq _ _ _))).
  rewrite seek_position by lia.
  rewrite (getitem_Some _ _ _ Lorder), bind_Ok.
  by rewrite (int_to_bytes_overflow _ 4 Hlength).
Qed.

End Layout.

End WriteFurther.

Lemma small_layout :
  has_layout small_config (layout_of small_platform) /\
  fields_in_order (layout_of small_platform) /\
  Forall (fits_record (layout_of small_platform))
    (GlobalImageMetadata.images small_metadata).
Proof.
  split; [apply config_of_has_layout; by right|]. split.
  - apply layout_of_in_order; by vm_compute.
  - unfold small_metadata. cbn [GlobalImageMetadata.images].
    constructor;
      [apply (extracted_fits_record small_platform); by vm_compute|].
    constructor;
      [apply (extracted_fits_record small_platform); by vm_compute|].
    constructor.
Qed.

Lemma fix_metadata_keeps_lower_bytes_witness :
  exists content',
    Composer.fix_metadata "out.bin" small_metadata small_config small_files =
      (Ok tt, <["out.bin" := content']> small_files) /\
    forall k : nat,
      Z.of_nat k < 140 -> Z.of_nat k < crc_offset (layout_of small_platform) ->
      (k < length (replicate 8 x00))%nat ->
      content' !! k = replicate 8 x00 !! k.
Proof.
  destruct small_layout as (Hlayout & Horder & Hfits).
  apply (fix_metadata_keeps_lower_bytes small_config (layout_of small_platform)
           Hlayout Horder "out.bin" small_metadata small_files
           (replicate 8 x00) "key" (bytes_of_string "secret") 140);
    try done.
Defined.

Lemma fix_metadata_key_round_trip_witness :
  exists content',
    Composer.fix_metadata "out.bin" small_metadata small_config small_files =
      (Ok tt, <["out.bin" := content']> small_files) /\
    read_at content' (Z.to_nat 140) (length (bytes_of_string "secret")) =
      bytes_of_string "secret".
Proof.
  destruct small_layout as (Hlayout & Horder & Hfits).
  apply (fix_metadata_key_round_trip small_config (layout_of small_platform)
           Hlayout Horder "out.bin" small_metadata small_files
           (replicate 8 x00) "key" (bytes_of_string "secret") 140);
    try done.
Defined.

Lemma fix_image_metadata_partial_witness :
  exists crc_bytes,
    int_to_bytes 1 4 (VScalar (SStr "big")) = Ok crc_bytes /\
    Composer.fix_image_metadata "out.bin" huge_image 1 small_config small_files =
      (Raise OverflowError,
       <["out.bin" :=
           write_at (replicate 8 x00)
             (position (layout_of small_platform)
                (crc_offset (layout_of small_platform)) 1) crc_bytes]>
         small_files).
Proof.
  destruct small_layout as (Hlayout & Horder & _).
  apply (fix_image_metadata_partial small_config (layout_of small_platform)
           Hlayout Horder "out.bin" huge_image 1 small_files (replicate 8 x00));
    try done.
  unfold huge_image. cbn [ImageMetadata.length]. lia.
Defined.

(** ** Placing the bootloader and the images *)

Section PlacementFurther.

Import Composer.

Variable run : list string -> files -> files.

(** X15: a placement step that raises has not started [dd]: the files
    are as they were, for the bootloader and for an image. *)
Theorem failed_placement_changes_nothing output_file config (fs : files) :
  (forall bootloader_file e fs',
     create_output_binary run bootloader_file output_file config fs =
       (Raise e, fs') -> fs' = fs) /\
  (forall image_file index e fs',
     append_image run image_file index output_file config fs = (Raise e, fs') ->
     fs' = fs).
Proof.
  split.
  - intros bootloader_file e fs'.
    unfold create_output_binary, get_length, mbind, io_bind, read_file, lift,
      raise, popen, mret, io_ret.
    destruct (fs !! bootloader_file) as [bootloader|];
      cbn beta iota; [|by intros [= _ <-]].
    destruct (getitem config "bootloader_size") as [[[limit|]|]|];
      cbn beta iota; try by intros [= _ <-].
    case_bool_decide; cbn beta iota; [by intros [= _ <-]|discriminate].
  - intros image_file index e fs'.
    unfold append_image, get_length, mbind, io_bind, read_file, lift,
      raise, popen, mret, io_ret.
    destruct (fs !! image_file) as [image|];
      cbn beta iota; [|by intros [= _ <-]].
    destruct (getitem config "max_image_size") as [[[limit|]|]|];
      cbn beta iota; try by intros [= _ <-].
    case_bool_decide; cbn beta iota; [by intros [= _ <-]|].
    destruct (getitem config "image_begin_addresses") as [addresses|];
      cbn beta iota; [|by intros [= _ <-]].
    destruct (val_index addresses index);
      cbn beta iota; [discriminate|by intros [= _ <-]].
Qed.

(** X16: the calculator gives as many addresses as [number_of_images],
    and the composer raises [IndexError] for an image beyond them, one
    that fits its slot size included; an image that is too big is
    reported for its size first. *)
Theorem more_images_than_slots platform p :
  describes platform p ->
  exists config,
    Layout.build_config platform = Ok config /\
    forall image_file image index output_file (fs : files),
      fs !! image_file = Some image ->
      (Z.to_nat (pd_number_of_images p) <= index)%nat ->
      (Z.of_nat (length image) <= pd_max_image_size p ->
       append_image run image_file index output_file config fs =
         (Raise IndexError, fs)) /\
      (pd_max_image_size p < Z.of_nat (length image) ->
       append_image run image_file index output_file config fs =
         (Raise (Exception (image_too_big image_file index
                              (Z.of_nat (length image)) (pd_max_image_size p))),
          fs)).
Proof.
  intros H. exists (config_of p). split; [by apply build_config_describes|].
  intros image_file image index output_file fs Hfile Hindex.
  pose proof (config_of_entries p)
    as (Haddresses & _ & _ & _ & _ & _ & _ & _ & _ & Hmax & _).
  split; intros Hsize.
  - unfold append_image.
    rewrite (io_bind_Ok _ _ _ _ _ (get_length_Some _ _ _ Hfile)).
    rewrite (getitem_Some _ _ _ Hmax).
    unfold mbind at 1. unfold io_bind, lift.
    rewrite bool_decide_eq_false_2 by lia.
    rewrite (getitem_Some _ _ _ Haddresses).
    unfold mbind, io_bind, val_index.
    rewrite lookup_ge_None_2; [done|].
    rewrite length_map, length_seqZ. lia.
  - by apply append_image_too_big.
Qed.

End PlacementFurther.

Lemma failed_placement_changes_nothing_witness :
  forall fs',
    Composer.append_image Dd.run "c.bin" 0 "out.bin" small_config small_files =
      (Raise (Exception
                (Composer.image_too_big "c.bin" 0 33 32)), fs') ->
    fs' = small_files.
Proof.
  intros fs'.
  apply (failed_placement_changes_nothing Dd.run "out.bin" small_config small_files).
Defined.

Lemma more_images_than_slots_witness :
  exists config,
    Layout.build_config (platform_dict small_platform) = Ok config /\
    Composer.append_image Dd.run "a.bin" 2 "out.bin" config small_files =
      (Raise IndexError, small_files) /\
    Composer.append_image Dd.run "c.bin" 2 "out.bin" config small_files =
      (Raise (Exception (Composer.image_too_big "c.bin" 2 33 32)), small_files).
Proof.
  destruct (more_images_than_slots Dd.run (platform_dict small_platform)
              small_platform (describes_platform_dict small_platform))
    as (config & Hconfig & Hslots).
  exists config. split; [done|]. split.
  - apply (Hslots "a.bin" (bytes_of_string "image-a") 2%nat "out.bin" small_files);
      [reflexivity|simpl; lia|by vm_compute].
  - apply (Hslots "c.bin" (bytes_of_string "image-c, 33 bytes long, one more.")
             2%nat "out.bin" small_files);
      [reflexivity|simpl; lia|by vm_compute].
Defined.

(** ** The reference behaviour of [dd] *)

Module DdProperties.

Lemma of_lu_nat_N d :
  DecimalNat.Unsigned.of_lu d = N.to_nat (DecimalPos.Unsigned.of_lu d).
Proof.
  induction d as [|d IH|d IH|d IH|d IH|d IH|d IH|d IH|d IH|d IH|d IH];
    cbn [DecimalNat.Unsigned.of_lu DecimalPos.Unsigned.of_lu];
    rewrite ?N2Nat.inj_add, ?N2Nat.inj_mul, ?IH; try reflexivity; lia.
Qed.

Lemma nat_of_uint_pos p : Nat.of_uint (Pos.to_uint p) = Pos.to_nat p.
Proof.
  rewrite DecimalNat.Unsigned.of_uint_alt, of_lu_nat_N.
  rewrite <- DecimalPos.Unsigned.of_uint_alt, DecimalPos.Unsigned.of_to.
  reflexivity.
Qed.

(** The count in [seek=N] is read back as [N]. *)
Lemma parse_count_str_of_Z n :
  0 <= n -> Dd.parse_count (str_of_Z n) = Some (Z.to_nat n).
Proof.
  intros Hn. unfold str_of_Z. destruct n as [|p|p]; [reflexivity| |lia].
  cbn [Z.to_int NilZero.string_of_int].
  unfold Dd.parse_count.
  pose proof (DecimalPos.Unsigned.to_uint_nonnil p) as Hnonnil.
  unfold NilZero.string_of_uint.
  destruct (Pos.to_uint p) as [| | | | | | | | | |] eqn:Hd; [done|..];
    rewrite <- Hd;
    (destruct (NilEmpty.string_of_uint (Pos.to_uint p)) eqn:Hs;
     [ rewrite Hd in Hs; discriminate Hs
     | rewrite <- Hs, NilEmpty.usu; simpl;
       by rewrite nat_of_uint_pos, Z2Nat.inj_pos ]).
Qed.

Lemma strip_append prefix s : Dd.strip prefix (String.append prefix s) = Some s.
Proof.
  induction prefix as [|a prefix IH]; [by destruct s|].
  simpl. by rewrite bool_decide_eq_true_2.
Qed.

(** The command of the composer copies the input over the output from
    byte [seek] on. *)
Lemma run_dd_command input output seek (fs : files) data :
  fs !! input = Some data ->
  0 <= seek ->
  Dd.run (Composer.dd_command input output (str_of_Z seek)) fs =
    <[output := write_at (default [] (fs !! output)) (Z.to_nat seek) data]> fs.
Proof.
  intros Hinput Hseek. unfold Dd.run, Composer.dd_command.
  rewrite !strip_append. cbn [mbind option_bind].
  by rewrite parse_count_str_of_Z, Hinput by done.
Qed.

End DdProperties.

(** ** Placing the images with [dd] *)

Section PlacementWithDd.

Import Composer.

Variable config : gmap string value.
Variable limit : Z.
Variable addresses : list Z.
Hypothesis Hlimit : config !! "max_image_size" = Some (VScalar (SInt limit)).
Hypothesis Haddresses :
  config !! "image_begin_addresses" = Some (VList (SInt <$> addresses)).
Hypothesis Hapart : slots_apart limit addresses.

Lemma append_image_dd image_file index output_file (fs : files) data address :
  addresses !! index = Some address ->
  fs !! image_file = Some data ->
  Z.of_nat (length data) <= limit ->
  append_image Dd.run image_file index output_file config fs =
    (Ok tt, <[output_file := write_at (content_of fs output_file)
                               (Z.to_nat address) data]> fs).
Proof.
  intros Haddress Hfile Hfits.
  rewrite (append_image_fits Dd.run image_file index output_file config fs
             data limit (SInt <$> addresses) (SInt address)); try done.
  - f_equal. apply DdProperties.run_dd_command; [done|].
    destruct Hapart as [Hpos _].
    by apply (Forall_lookup_1 _ _ _ _ Hpos Haddress).
  - by rewrite list_lookup_fmap, Haddress.
Qed.

Lemma images_fit_insert (fs : files) output_file content images datas :
  output_file ∉ images ->
  images_fit fs limit images datas ->
  images_fit (<[output_file := content]> fs) limit images datas.
Proof.
  intros Hout Hfit. unfold images_fit in *.
  induction Hfit as [|image_file data images datas [Hfile Hlen] Hfit IH];
    constructor.
  - split; [|done]. rewrite lookup_insert_ne; [done|].
    intros ->. apply Hout. by left.
  - apply IH. intros Hin. apply Hout. by right.
Qed.

(** The loop from [index] on: every image is at its slot afterwards, the
    bytes below [bound] are kept, and so is every other file. *)
Lemma append_images_loop_dd output_file images :
  forall index datas (fs : files) bound,
    images_fit fs limit images datas ->
    output_file ∉ images ->
    (index + length images <= length addresses)%nat ->
    (forall j address, (index <= j)%nat -> addresses !! j = Some address ->
       bound <= address) ->
    exists fs',
      append_images_loop Dd.run images index output_file config fs =
        (Ok tt, fs') /\
      same_but output_file fs fs' /\
      kept_below (Z.to_nat bound) (content_of fs output_file)
        (content_of fs' output_file) /\
      forall i data address,
        datas !! i = Some data ->
        addresses !! (index + i)%nat = Some address ->
        holds (content_of fs' output_file) (Z.to_nat address) data.
Proof.
  induction images as [|image_file images IH];
    intros index datas fs bound Hfit Hout Hlen Hbound.
  - apply Forall2_nil_inv_l in Hfit as ->.
    exists fs. split; [done|]. split; [done|].
    split; [apply kept_below_refl|]. intros i data address Hdata.
    by rewrite lookup_nil in Hdata.
  - apply Forall2_cons_inv_l in Hfit
      as (data & datas' & [Hfile Hsize] & Hfit & ->).
    cbn [length] in Hlen.
    destruct (lookup_lt_is_Some_2 addresses index ltac:(lia)) as [a Ha].
    destruct Hapart as [Hpos Hgap].
    pose proof (Forall_lookup_1 _ _ _ _ Hpos Ha) as Hapos. cbn beta in Hapos.
    pose proof (append_image_dd image_file index output_file fs data a
                  Ha Hfile Hsize) as Wfirst.
    set (c0 := content_of fs output_file) in *.
    set (c1 := write_at c0 (Z.to_nat a) data) in *.
    destruct (IH (S index) datas' (<[output_file := c1]> fs) (a + limit))
      as (fs' & W & Hsame & Hkept & Hholds).
    + apply images_fit_insert; [|done]. intros Hin. apply Hout. by right.
    + intros Hin. apply Hout. by right.
    + lia.
    + intros j b Hj Hb. apply (Hgap index j a b); [done|done|lia].
    + assert (Hc1 : content_of (<[output_file := c1]> fs) output_file = c1)
        by (unfold content_of; by rewrite lookup_insert_eq).
      rewrite Hc1 in Hkept.
      exists fs'. split; [|split; [|split]].
      * cbn [append_images_loop]. by rewrite (io_bind_Ok _ _ _ _ _ Wfirst).
      * intros other Hother. rewrite (Hsame other Hother).
        by rewrite lookup_insert_ne.
      * apply (kept_below_trans _ (Z.to_nat (a + limit)) _ c1).
        -- apply (kept_below_le _ (Z.to_nat a)); [apply kept_below_write_at|].
           pose proof (Hbound index a ltac:(lia) Ha). lia.
        -- done.
        -- pose proof (Hbound index a ltac:(lia) Ha). lia.
      * intros i d b Hd Hb. destruct i as [|i].
        -- rewrite Nat.add_0_r, Ha in Hb. injection Hb as <-.
           cbn in Hd. injection Hd as <-.
           apply (holds_kept c1 _ _ _ (Z.to_nat (a + limit)));
             [apply holds_write_at|done|lia].
        -- cbn in Hd. apply (Hholds i d b Hd).
           by rewrite <- Nat.add_succ_comm in Hb.
Qed.

(** X17: with [dd] doing what its manual says, when every image fits the
    slot size, there are slots enough and they lie a slot size apart,
    [append_images_to_binary] returns; afterwards the output holds image
    [i] from byte [image_begin_addresses[i]] on, its bytes below the
    first slot are as they were (a bootloader placed there stays), and no
    other file has changed. *)
Theorem images_land_in_their_slots output_file images datas (fs : files) :
  images_fit fs limit images datas ->
  output_file ∉ images ->
  (length images <= length addresses)%nat ->
  exists fs',
    append_images_to_binary Dd.run images output_file config fs = (Ok tt, fs') /\
    same_but output_file fs fs' /\
    kept_below (Z.to_nat (default 0 (head addresses)))
      (content_of fs output_file) (content_of fs' output_file) /\
    forall i data address,
      datas !! i = Some data ->
      addresses !! i = Some address ->
      holds (content_of fs' output_file) (Z.to_nat address) data.
Proof.
  intros Hfit Hout Hlen.
  assert (Hempty : images = [] \/ 0 <= limit).
  { destruct Hfit as [|image_file data ? ? [_ Hsize] _]; [by left|right]. lia. }
  destruct Hempty as [-> | Hnonneg].
  - apply Forall2_nil_inv_l in Hfit as ->.
    exists fs. split; [done|]. split; [done|].
    split; [apply kept_below_refl|]. intros i data address Hdata.
    by rewrite lookup_nil in Hdata.
  - apply (append_images_loop_dd output_file images 0 datas fs
             (default 0 (head addresses)) Hfit Hout Hlen).
    intros j address _ Hj. destruct Hapart as [Hpos Hgap].
    destruct addresses as [|a rest]; [by rewrite lookup_nil in Hj|].
    simpl. destruct j as [|j]; [cbn in Hj; injection Hj as <-; lia|].
    pose proof (Hgap 0%nat (S j) a address eq_refl Hj ltac:(lia)). lia.
Qed.

End PlacementWithDd.

Lemma small_slots_apart : slots_apart 32 [16; 48].
Proof.
  split; [repeat constructor; lia|].
  intros i j a b Hi Hj Hlt.
  destruct i as [|[|i]]; destruct j as [|[|j]];
    cbn in Hi, Hj; try discriminate; try lia.
  injection Hi as <-. injection Hj as <-. lia.
Qed.

Lemma small_images_fit :
  images_fit small_files 32 ["a.bin"; "b.bin"]
    [bytes_of_string "image-a"; bytes_of_string "image-b, 32 bytes long, no more."].
Proof.
  constructor; [split; [by vm_compute|by vm_compute]|].
  constructor; [split; [by vm_compute|by vm_compute]|].
  constructor.
Qed.

Lemma out_not_an_image : "out.bin" ∉ ["a.bin"; "b.bin"].
Proof.
  intros Hin.
  repeat (apply elem_of_cons in Hin as [Hin|Hin]; [discriminate|]).
  by apply elem_of_nil in Hin.
Qed.

Lemma images_land_in_their_slots_witness :
  exists fs',
    Composer.append_images_to_binary Dd.run ["a.bin"; "b.bin"] "out.bin"
      small_config small_files = (Ok tt, fs') /\
    same_but "out.bin" small_files fs' /\
    kept_below (Z.to_nat (default 0 (head [16; 48])))
      (content_of small_files "out.bin") (content_of fs' "out.bin") /\
    forall i data address,
      [bytes_of_string "image-a";
       bytes_of_string "image-b, 32 bytes long, no more."] !! i = Some data ->
      [16; 48] !! i = Some address ->
      holds (content_of fs' "out.bin") (Z.to_nat address) data.
Proof.
  apply (images_land_in_their_slots small_config 32 [16; 48]).
  - by vm_compute.
  - by vm_compute.
  - exact small_slots_apart.
  - exact small_images_fit.
  - exact out_not_an_image.
  - simpl. lia.
Defined.
